(** * aws-parallelcluster-node: the SGE job watcher and the scheduler converters

    A shallow embedding of [src/jobwatcher/plugins/sge.py] and
    [src/common/schedulers/converters.py], followed by the properties of the
    capacity planner, the busy-node classifier and the declarative mapper.

    Python integers are unbounded and are modelled by [Z]; Python exceptions
    are modelled by the error monad [result]. The calls to [logging] have no
    effect on the results and are left out. *)

From Stdlib Require Import ZArith Lia Ascii.
From Stdlib Require QArith Qround.
From stdpp Require Import base option list sorting strings gmap.

Set Warnings "-register-all".
Open Scope Z_scope.

(** ** Python exceptions as an error monad *)

Module Py.

Inductive exn : Type :=
  | TypeError
  | ZeroDivisionError
  | IndexError
  | KeyError
  | ValueError
  | SyntaxError
  | ParseError
  | OutsideFragment.

Inductive result (A : Type) : Type :=
  | Ok (a : A)
  | Raise (e : exn).
Arguments Ok {A} a.
Arguments Raise {A} e.

Definition bind {A B : Type} (m : result A) (k : A → result B) : result B :=
  match m with
  | Ok a => k a
  | Raise e => Raise e
  end.

(** [for x in xs: acc = body(acc, x)], stopping at the first exception. *)
Fixpoint for_each {A S : Type} (body : S → A → result S) (xs : list A) (acc : S)
    : result S :=
  match xs with
  | [] => Ok acc
  | x :: xs => bind (body acc x) (for_each body xs)
  end.

(** A list comprehension whose element expression may raise. *)
Fixpoint collect {A B : Type} (f : A → result B) (xs : list A) : result (list B) :=
  match xs with
  | [] => Ok []
  | x :: xs => bind (f x) (λ y, bind (collect f xs) (λ ys, Ok (y :: ys)))
  end.

End Py.

Import Py.

#[global] Instance result_ret : MRet result := @Ok.
#[global] Instance result_bind : MBind result := λ A B k m, bind m k.
#[global] Instance result_fmap : FMap result := λ A B f m, bind m (λ a, Ok (f a)).

(** ** Strings

    A Python 3 [str] restricted to code points below 256: one [ascii] per
    code point. *)

Module Str.

Definition code (c : ascii) : N := N_of_ascii c.

(** [str.isspace] on one code point below 256. *)
Definition isspace (c : ascii) : bool :=
  let n := code c in
  ((9 <=? n) && (n <=? 13) || (28 <=? n) && (n <=? 32)
   || (n =? 133) || (n =? 160))%N.

Fixpoint lstrip (s : string) : string :=
  match s with
  | String c rest => if isspace c then lstrip rest else s
  | EmptyString => EmptyString
  end.

(** Drops trailing whitespace: a character stays when it is not whitespace
    or when something stays after it. *)
Fixpoint rstrip (s : string) : string :=
  match s with
  | String c rest =>
      match rstrip rest with
      | EmptyString => if isspace c then EmptyString else String c EmptyString
      | kept => String c kept
      end
  | EmptyString => EmptyString
  end.

(** [s.strip()] *)
Definition strip (s : string) : string := rstrip (lstrip s).

(** The truth value of a [str]: non-empty. *)
Definition truthy (s : string) : bool :=
  match s with
  | EmptyString => false
  | String _ _ => true
  end.

(** [str.splitlines] line boundaries below 256, except that [\r\n] is one
    boundary (handled in [splitlines_from]). *)
Definition is_linebreak (c : ascii) : bool :=
  let n := code c in
  ((10 <=? n) && (n <=? 13) || (28 <=? n) && (n <=? 30) || (n =? 133))%N.

(** [cur] is the line read so far. A last line is kept only when it is not
    empty: a final boundary opens no line. *)
Fixpoint splitlines_from (s cur : string) : list string :=
  match s with
  | EmptyString => if truthy cur then [cur] else []
  | String c rest =>
      if is_linebreak c then
        match rest with
        | String c' rest' =>
            if ((code c =? 13) && (code c' =? 10))%N
            then cur :: splitlines_from rest' EmptyString
            else cur :: splitlines_from rest EmptyString
        | EmptyString => [cur]
        end
      else splitlines_from rest (cur +:+ String c EmptyString)
  end.

(** [s.splitlines()] *)
Definition splitlines (s : string) : list string := splitlines_from s EmptyString.

(** [sep] occurs at the start of [s]. *)
Fixpoint startswith (sep s : string) : bool :=
  match sep, s with
  | EmptyString, _ => true
  | String a sep', String b s' => Ascii.eqb a b && startswith sep' s'
  | String _ _, EmptyString => false
  end.

(** Left-to-right search for non-overlapping occurrences of [sep];
    [skip] counts the characters of a found occurrence still to pass. *)
Fixpoint split_from (sep s : string) (skip : nat) (cur : string) : list string :=
  match s with
  | EmptyString => [cur]
  | String c rest =>
      match skip with
      | S k => split_from sep rest k cur
      | O =>
          if startswith sep s
          then cur :: split_from sep rest (Nat.pred (String.length sep)) EmptyString
          else split_from sep rest O (cur +:+ String c EmptyString)
      end
  end.

(** [s.split(sep)]: an empty separator raises [ValueError]. *)
Definition split (s sep : string) : result (list string) :=
  if truthy sep then Ok (split_from sep s O EmptyString) else Raise ValueError.

(** [s[-1:]], when it is not empty. *)
Fixpoint last_char (s : string) : option ascii :=
  match s with
  | EmptyString => None
  | String c EmptyString => Some c
  | String _ rest => last_char rest
  end.

End Str.

(** ** xml.etree.ElementTree: elements and the path language of [findall] *)

Module ET.

Inductive Element : Type := Build {
  tag : string;
  attrib : gmap string string;
  text : option string;
  tail : option string;
  children : list Element
}.

(** [elem.iter()]: the element, then its subelements, in document order. *)
Fixpoint iter (e : Element) : list Element :=
  e :: flat_map iter (children e).

(** What [elem.iter()] yields after [elem] itself. *)
Definition descendants (e : Element) : list Element :=
  flat_map iter (children e).

(** *** ElementPath

    The fragment of the path language built from tag names, [*], [.], [/]
    and [//]. A path that uses anything else (predicates, [..], namespaces)
    is reported as [OutsideFragment]: the model says nothing about it. *)

Inductive token : Type :=
  | TSlash            (* "/" *)
  | TDSlash           (* "//" *)
  | TDot              (* "." *)
  | TStar             (* "*" *)
  | TName (tag : string).

Definition is_slash (c : ascii) : bool := (Str.code c =? 47)%N.
Definition is_dot (c : ascii) : bool := (Str.code c =? 46)%N.
Definition is_star (c : ascii) : bool := (Str.code c =? 42)%N.

(** Letters, digits, [_] and [-]: characters that can start a name token. *)
Definition is_plain (c : ascii) : bool :=
  let n := Str.code c in
  ((48 <=? n) && (n <=? 57) || (65 <=? n) && (n <=? 90)
   || (97 <=? n) && (n <=? 122) || (n =? 95) || (n =? 45))%N.

(** Inside a name token [.] and [*] are ordinary characters. *)
Definition is_name_char (c : ascii) : bool := is_plain c || is_dot c || is_star c.

(** [xpath_tokenizer] on the fragment; [name] is the name token being read. *)
Fixpoint tokens_from (s : string) (name : option string) : result (list token) :=
  match s with
  | EmptyString => Ok (match name with Some n => [TName n] | None => [] end)
  | String c rest =>
      let slash :=
        match rest with
        | String c' rest' =>
            if is_slash c' then cons TDSlash <$> tokens_from rest' None
            else cons TSlash <$> tokens_from rest None
        | EmptyString => cons TSlash <$> tokens_from rest None
        end in
      match name with
      | Some n =>
          if is_name_char c then tokens_from rest (Some (n +:+ String c EmptyString))
          else if is_slash c then cons (TName n) <$> slash
          else Raise OutsideFragment
      | None =>
          if is_plain c then tokens_from rest (Some (String c EmptyString))
          else if is_slash c then slash
          else if is_star c then cons TStar <$> tokens_from rest None
          else if is_dot c then
            match rest with
            | String c' _ =>
                if is_dot c' then Raise OutsideFragment
                else cons TDot <$> tokens_from rest None
            | EmptyString => cons TDot <$> tokens_from rest None
            end
          else Raise OutsideFragment
      end
  end.

Definition xpath_tokenizer (path : string) : result (list token) :=
  tokens_from path None.

Inductive selector : Type :=
  | select_child (tag : string)
  | select_star
  | select_self
  | select_descendant (tag : option string).   (* [None]: any tag *)

(** The loop of [iterfind] that builds the selector list: one [ops] entry
    per step, then an optional [/] before the next one. *)
Fixpoint compile (tokens : list token) : result (list selector) :=
  let next (sel : selector) (rest : list token) : result (list selector) :=
    match rest with
    | [] => Ok [sel]
    | TSlash :: rest' => cons sel <$> compile rest'
    | _ :: _ => cons sel <$> compile rest
    end in
  match tokens with
  | [] => Ok []
  | TName tag :: rest => next (select_child tag) rest
  | TStar :: rest => next select_star rest
  | TDot :: rest => next select_self rest
  | TSlash :: _ => Raise KeyError
  | TDSlash :: rest =>
      match rest with
      | [] => Raise TypeError
      | TStar :: rest' => next (select_descendant None) rest'
      | TName tag :: rest' => next (select_descendant (Some tag)) rest'
      | _ :: _ => Raise SyntaxError
      end
  end.

Definition tag_is (t : string) (e : Element) : bool := String.eqb (tag e) t.

Definition select (sel : selector) (result : list Element) : list Element :=
  match sel with
  | select_child t => flat_map (λ elem, List.filter (tag_is t) (children elem)) result
  | select_star => flat_map children result
  | select_self => result
  | select_descendant (Some t) =>
      flat_map (λ elem, List.filter (tag_is t) (descendants elem)) result
  | select_descendant None => flat_map descendants result
  end.

(** [elem.findall(path)] *)
Definition findall (elem : Element) (path : string) : result (list Element) :=
  let path :=
    match Str.last_char path with
    | Some c => if is_slash c then path +:+ "*" else path
    | None => path
    end in
  if Str.startswith "/" path then Raise SyntaxError
  else
    tokens ← xpath_tokenizer path ;
    match tokens with
    | [] => Ok []
    | _ :: _ =>
        selector ← compile tokens ;
        Ok (fold_left (λ result sel, select sel result) selector [elem])
    end.

End ET.

(** ** converters.py: the declarative mapper *)

Module Converters.

(** The Python values the mapper handles. *)
Inductive value : Type :=
  | VNone
  | VStr (s : string)
  | VInt (z : Z)
  | VElement (e : ET.Element)
  | VDict (items : list (string * value))
  | VList (items : list value).

(** One entry of a [MAPPINGS] dictionary: each key may be absent. *)
Record mapping : Type := Mapping {
  field : option string;
  transformation : option (value → result value);
  xml_elem_type : option string
}.

(** The truth value of the dict: some key is present. *)
Definition mapping_truthy (m : mapping) : bool :=
  bool_decide (is_Some (field m)) || bool_decide (is_Some (xml_elem_type m))
  || match transformation m with Some _ => true | None => false end.

(** A record class: [new] is the instance [obj_type()] builds (its
    attributes hold the defaults of [__init__]); [MAPPINGS] is the class
    dictionary in its iteration order. *)
Record obj_type : Type := ObjType {
  new : gmap string value;
  MAPPINGS : list (string * mapping)
}.

(** [mappings.get(column)] *)
Fixpoint get (mappings : list (string * mapping)) (key : string) : option mapping :=
  match mappings with
  | [] => None
  | (k, m) :: mappings => if String.eqb k key then Some m else get mappings key
  end.

(** [mapping["field"]] *)
Definition field_of (m : mapping) : result string :=
  match field m with
  | Some f => Ok f
  | None => Raise KeyError
  end.

(** [input if transformation_func is None else transformation_func(input)] *)
Definition transform (transformation_func : option (value → result value))
    (input : value) : result value :=
  match transformation_func with
  | None => Ok input
  | Some f => f input
  end.

(** Lines 46-48: [result.text], stripped when it is a non-empty string. *)
Definition text_input (result : ET.Element) : value :=
  match ET.text result with
  | None => VNone
  | Some s => if Str.truthy s then VStr (Str.strip s) else VStr s
  end.

(** Lines 43-83: the value [input] of one matched element. *)
Definition extract_input (xml_elem_type : string) (result : ET.Element) : value :=
  if String.eqb xml_elem_type "xml" then VElement result
  else
    let input := text_input result in
    match ET.attrib result !! "name"%string with
    | Some name => VDict [(name, input)]
    | None => input
    end.

(** Lines 39-84: the list [values] of one mapping entry. *)
Definition values_of (m : mapping) (results : list ET.Element) : result (list value) :=
  let transformation_func := transformation m in
  let xml_elem_type := default "text"%string (xml_elem_type m) in
  collect (λ result, transform transformation_func (extract_input xml_elem_type result))
          results.

(** [values[0] if len(values) == 1 else values] *)
Definition aggregate (values : list value) : value :=
  match values with
  | [v] => v
  | _ => VList values
  end.

(** Lines 38-86: the body of the loop over [MAPPINGS.items()]. *)
Definition map_tag (root : ET.Element) (obj : gmap string value)
    (item : string * mapping) : result (gmap string value) :=
  let '(tag, m) := item in
  results ← ET.findall root tag ;
  values ← values_of m results ;
  match values with
  | [] => Ok obj
  | _ :: _ => f ← field_of m ; Ok (<[f := aggregate values]> obj)
  end.

(** Lines 117-122: one [(item, column)] pair of a table row. *)
Definition map_item (mappings : list (string * mapping)) (obj : gmap string value)
    (pair : string * string) : result (gmap string value) :=
  let '(item, column) := pair in
  match get mappings column with
  | Some m =>
      if mapping_truthy m then
        value ← transform (transformation m) (VStr item) ;
        f ← field_of m ;
        Ok (<[f := value]> obj)
      else Ok obj
  | None => Ok obj
  end.

Section Mapper.

(** [ElementTree.fromstring]: the XML parser, which raises [ParseError]
    on text that is not well-formed. *)
Variable fromstring : string → result ET.Element.

Definition from_xml_to_obj (xml : string) (T : obj_type)
    : result (gmap string value) :=
  let obj := new T in
  root ← fromstring xml ;
  for_each (map_tag root) (MAPPINGS T) obj.

End Mapper.

Definition from_table_to_obj_list (table : string) (T : obj_type)
    (separator : string) : result (list (gmap string value)) :=
  let lines := Str.splitlines table in
  if bool_decide (1 < length lines)%nat then
    match lines with
    | [] => Raise IndexError
    | header :: rows =>
        let mappings := MAPPINGS T in
        columns ← Str.split header separator ;
        collect (λ row,
                   items ← Str.split row separator ;
                   for_each (map_item mappings) (zip items columns) (new T))
                rows
    end
  else Ok [].

End Converters.

(** ** sge.py: the capacity planner and the busy-node classifier *)

Module SgeHost.
(** Modelled from the spec: the [ComputeNode] record of
    [common.schedulers.sge_commands] (not under src/):
    [{name, state: set-of-tokens, slotsUsed: int, slotsReserved: int}]. *)
Record t : Type := Build {
  name : string;
  state : gset string;
  slots_used : Z;
  slots_reserved : Z
}.
End SgeHost.

Module SgeJob.
(** Modelled from the spec: the [PendingJob] record of
    [common.schedulers.sge_commands] (not under src/):
    [{id, slots: int, state/holdFlag}]. *)
Record t : Type := Build {
  number : string;
  slots : Z;
  state : string
}.
End SgeJob.

Module Sge.

Section Plugin.

(** The names [sge.py] imports from [common.schedulers.sge_commands]. The
    two adapters run scheduler commands; here they are the snapshot they
    return ([nodes] is a dict, kept in its iteration order). *)
Variable SGE_BUSY_STATES : list string.
Variable SGE_HOLD_STATE : string.
Variable SGE_ORPHANED_STATE : string.
Variable get_compute_nodes_info : list (string * SgeHost.t).
Variable get_pending_jobs_info : Z → string → list SgeJob.t.

(** [instance_properties.get("slots")] used as a number: a missing key
    gives [None], and arithmetic on [None] raises [TypeError]. *)
Definition get_slots (instance_properties : gmap string Z) : result Z :=
  match instance_properties !! "slots"%string with
  | Some v => Ok v
  | None => Raise TypeError
  end.

(** [for i in range(len(avail_slots))] of lines 36-40, over the indices
    still to visit; the boolean is [found_slot]. *)
Fixpoint scan_slots (job_slots : Z) (avail_slots : list Z) (range : list nat)
    : result (list Z * bool) :=
  match range with
  | [] => Ok (avail_slots, false)
  | i :: range =>
      match avail_slots !! i with
      | None => Raise IndexError
      | Some a =>
          if bool_decide (job_slots ≤ a)
          then Ok (<[i := a - job_slots]> avail_slots, true)
          else scan_slots job_slots avail_slots range
      end
  end.

(** The body of [for job in pending_jobs] (lines 35-42) on the state
    [(avail_slots, slots)]. *)
Definition match_job (st : list Z * Z) (job : SgeJob.t) : result (list Z * Z) :=
  let '(avail_slots, slots) := st in
  '(avail_slots, found_slot) ←
    scan_slots (SgeJob.slots job) avail_slots (seq 0 (length avail_slots)) ;
  Ok (avail_slots, if found_slot : bool then slots else slots + SgeJob.slots job).

(** Lines 24-28: the sorted list of available slots per node. The fields
    [slots_used] and [slots_reserved] are integers, on which [int] is the
    identity. *)
Definition build_avail_slots (instance_properties : gmap string Z)
    : result (list Z) :=
  avail_slots ←
    collect (λ node : SgeHost.t,
               s ← get_slots instance_properties ;
               Ok (s - SgeHost.slots_used node - SgeHost.slots_reserved node))
            (get_compute_nodes_info.*2) ;
  Ok (merge_sort Z.le avail_slots).

(** Lines 24-43: the state [(avail_slots, slots)] when the loop over the
    pending jobs ends (the list is what line 43 logs). *)
Definition run_matching (instance_properties : gmap string Z) (max_size : Z)
    : result (list Z * Z) :=
  avail_slots ← build_avail_slots instance_properties ;
  max_cluster_slots ←
    (s ← get_slots instance_properties ; Ok (max_size * s)) ;
  let pending_jobs := get_pending_jobs_info max_cluster_slots SGE_HOLD_STATE in
  for_each match_job pending_jobs (avail_slots, 0).

Definition _get_required_slots (instance_properties : gmap string Z)
    (max_size : Z) : result Z :=
  '(avail_slots, slots) ← run_matching instance_properties max_size ;
  Ok slots.

(** [-(-required_slots // vcpus)]: Python's [//] is floor division, as
    [Z.div] is; a zero divisor raises. *)
Definition get_required_nodes (instance_properties : gmap string Z)
    (max_size : Z) : result Z :=
  required_slots ← _get_required_slots instance_properties max_size ;
  vcpus ← get_slots instance_properties ;
  if bool_decide (vcpus = 0) then Raise ZeroDivisionError
  else Ok (- ((- required_slots) / vcpus)).

(** The condition of lines 62-66. *)
Definition has_busy_condition (node : SgeHost.t) : bool :=
  existsb (λ busy_state, bool_decide (busy_state ∈ SgeHost.state node))
          SGE_BUSY_STATES
  || bool_decide (0 < SgeHost.slots_used node)
  || bool_decide (0 < SgeHost.slots_reserved node).

Definition get_busy_nodes : Z :=
  fold_left
    (λ busy_nodes node,
       if has_busy_condition node then
         if bool_decide (SGE_ORPHANED_STATE ∈ SgeHost.state node)
         then busy_nodes
         else busy_nodes + 1
       else busy_nodes)
    (get_compute_nodes_info.*2) 0.

End Plugin.

End Sge.

(** ** Vocabulary of the mapper's properties *)

(** Every character of [s] satisfies [p]. *)
Fixpoint all_chars (p : ascii → bool) (s : string) : bool :=
  match s with
  | EmptyString => true
  | String c rest => p c && all_chars p rest
  end.

Definition first_char (s : string) : option ascii :=
  match s with
  | EmptyString => None
  | String c _ => Some c
  end.

(** [s] neither starts nor ends with whitespace. *)
Definition trimmed (s : string) : Prop :=
  (∀ c, first_char s = Some c → Str.isspace c = false)
  ∧ (∀ c, Str.last_char s = Some c → Str.isspace c = false).

(** A source key that is a plain tag name: it starts with a letter, a
    digit, [_] or [-] and goes on with these, [.] or [*]. *)
Definition is_tag_name (k : string) : bool :=
  match k with
  | EmptyString => false
  | String c rest => ET.is_plain c && all_chars ET.is_name_char rest
  end.

(** The fields the entries of a [MAPPINGS] dictionary assign to. *)
Definition target_fields (mappings : list (string * Converters.mapping))
    : list (option string) :=
  Converters.field <$> mappings.*2.

(** ** Vocabulary of the planner's properties *)

(** [ceil(r / v)] in the spec's words: the ceiling of the rational quotient. *)
Definition ceil_div (r v : Z) : Z :=
  Qround.Qceiling (QArith_base.Qdiv (QArith_base.inject_Z r) (QArith_base.inject_Z v)).

(** A node counts as busy: its state has one of the busy tokens, or it has
    used or reserved slots; and its state does not have the orphaned token. *)
Definition counts_as_busy (busy_tokens : list string) (orphaned : string)
    (node : SgeHost.t) : Prop :=
  (Exists (λ token, token ∈ SgeHost.state node) busy_tokens
   ∨ 0 < SgeHost.slots_used node
   ∨ 0 < SgeHost.slots_reserved node)
  ∧ orphaned ∉ SgeHost.state node.

#[global] Instance counts_as_busy_dec (busy_tokens : list string) (orphaned : string)
    (node : SgeHost.t) : Decision (counts_as_busy busy_tokens orphaned node).
Proof. unfold counts_as_busy. apply _. Defined.

(** The sum of a list of slot counts. *)
Definition total (l : list Z) : Z := foldr Z.add 0 l.

(** The free slots of all nodes together; a node that is over-committed
    (a negative entry) has none. *)
Definition free_capacity (avail_slots : list Z) : Z :=
  total (Z.max 0 <$> avail_slots).

(** The outcome of offering one job of [job_slots] slots to the list: it is
    placed on the first entry that covers it, which loses exactly
    [job_slots], or no entry covers it and the list is unchanged. *)
Inductive placement (avail_slots : list Z) (job_slots : Z)
    : list Z → bool → Prop :=
  | placed (i : nat) (a : Z) :
      avail_slots !! i = Some a →
      job_slots ≤ a →
      (∀ (j : nat) (b : Z), (j < i)%nat → avail_slots !! j = Some b → b < job_slots) →
      placement avail_slots job_slots (<[i := a - job_slots]> avail_slots) true
  | waiting :
      (∀ (j : nat) (b : Z), avail_slots !! j = Some b → b < job_slots) →
      placement avail_slots job_slots avail_slots false.

Module Assignment.

(** An assignment gives each pending job, in queue order, the index of the
    node whose free slots it takes, or [None] when the job is left unmet. *)

(** The demand the assignment puts on node [i]. *)
Fixpoint load (f : list (option nat)) (demands : list Z) (i : nat) : Z :=
  match f, demands with
  | o :: f, d :: demands =>
      (if bool_decide (o = Some i) then d else 0) + load f demands i
  | _, _ => 0
  end.

(** The demand of the jobs the assignment leaves unmet. *)
Fixpoint unmet (f : list (option nat)) (demands : list Z) : Z :=
  match f, demands with
  | o :: f, d :: demands =>
      (match o with None => d | Some _ => 0 end) + unmet f demands
  | _, _ => 0
  end.

(** Every job is decided, and every node that receives a job exists and
    covers, with its initial free slots, all the demand put on it. *)
Definition feasible (avail_slots : list Z) (demands : list Z)
    (f : list (option nat)) : bool :=
  bool_decide (length f = length demands)
  && forallb (λ o, match o with
                   | None => true
                   | Some i =>
                       match avail_slots !! i with
                       | Some c => bool_decide (load f demands i ≤ c)
                       | None => false
                       end
                   end) f.

End Assignment.

(** The greedy pass as a relation: [matching avail demands avail' required]
    when offering the demands one after the other, each to the list the
    previous one left, ends with [avail'] and the unplaced demand
    [required]. *)
Inductive matching : list Z → list Z → list Z → Z → Prop :=
  | matching_done (avail : list Z) : matching avail [] avail 0
  | matching_step (avail avail1 avail' : list Z) (d : Z) (ds : list Z)
      (found : bool) (required : Z) :
      placement avail d avail1 found →
      matching avail1 ds avail' required →
      matching avail (d :: ds) avail' ((if found then 0 else d) + required).

(** ** A cluster snapshot to run the planner on

    Three nodes of four slots with 4, 2 and 0 of them free, and a queue of
    three jobs asking for 1, 3 and 5 slots. *)

Module Demo.

Definition instance_properties : gmap string Z := {["slots"%string := 4]}.

Definition nodes : list (string * SgeHost.t) :=
  [ ("node-a"%string, SgeHost.Build "node-a" ∅ 0 0);
    ("node-b"%string, SgeHost.Build "node-b" ∅ 3 1);
    ("node-c"%string, SgeHost.Build "node-c" ∅ 1 1) ].

Definition queue : list SgeJob.t :=
  [ SgeJob.Build "101" 1 "qw"; SgeJob.Build "102" 3 "qw"; SgeJob.Build "103" 5 "qw" ].

(** Modelled from the spec: the job-info adapter of
    [common.schedulers.sge_commands] (not under src/), which leaves out the
    jobs in the state to skip and the jobs asking for more than
    [max_slots_filter] slots. *)
Definition pending_jobs (max_slots_filter : Z) (skip_if_state : string)
    : list SgeJob.t :=
  List.filter (λ job, bool_decide (SgeJob.slots job ≤ max_slots_filter)
                      && negb (String.eqb (SgeJob.state job) skip_if_state))
              queue.

End Demo.

(** ** Scheduler documents to run the mapper on *)

Module DemoXml.

Import Converters.

Definition is_digit (c : ascii) : bool :=
  ((48 <=? Str.code c) && (Str.code c <=? 57))%N.

Fixpoint digits_value (s : string) (acc : Z) : option Z :=
  match s with
  | EmptyString => Some acc
  | String c rest =>
      if is_digit c then digits_value rest (10 * acc + (Z.of_N (Str.code c) - 48))
      else None
  end.

(** The transformation [int], on the inputs the documents below give it: a
    string of decimal digits is read as a number, another string raises
    [ValueError], [None] raises [TypeError]. *)
Definition int (v : value) : result value :=
  match v with
  | VStr (String _ _ as s) =>
      match digits_value s 0 with
      | Some z => Ok (VInt z)
      | None => Raise ValueError
      end
  | VStr EmptyString => Raise ValueError
  | VInt z => Ok (VInt z)
  | _ => Raise TypeError
  end.

(** A job record class in the shape of the one the comment of lines 76-81
    prints. *)
Definition SgeJobType : obj_type := {|
  new := {[ "number"%string := VNone; "slots"%string := VInt 0;
            "state"%string := VStr ""; "hostname"%string := VNone;
            "hard_request"%string := VNone ]};
  MAPPINGS :=
    [ ("JB_job_number"%string, Mapping (Some "number"%string) None None);
      ("slots"%string, Mapping (Some "slots"%string) (Some int) None);
      ("state"%string, Mapping (Some "state"%string) None None);
      ("queue_name"%string, Mapping (Some "hostname"%string) None None);
      ("hard_request"%string, Mapping (Some "hard_request"%string) None None) ]
|}.

Definition element (tag : string) (attrib : gmap string string)
    (text : option string) (children : list ET.Element) : ET.Element :=
  ET.Build tag attrib text None children.

(** [<hard_request name="vcs_build">TRUE</hard_request>] *)
Definition hard_request_vcs_build : ET.Element :=
  element "hard_request" {["name"%string := "vcs_build"%string]} (Some "TRUE"%string) [].

Definition hard_request (name value : string) : ET.Element :=
  element "hard_request"
    {["name"%string := name; "resource_contribution"%string := "0.000000"%string]}
    (Some value) [].

(** The job of the comment of lines 54-68 with one hard request, the text
    of [<slots>] surrounded by blanks. *)
Definition job_list : ET.Element :=
  element "job_list" {["state"%string := "pending"%string]} None
    [ element "JB_job_number" ∅ (Some "12422"%string) [];
      element "state" ∅ (Some "qw"%string) [];
      element "queue_name" ∅ None [];
      element "slots" ∅ (Some " 1 "%string) [];
      hard_request_vcs_build ].

Definition job_list_xml : string :=
  "<job_list state='pending'><JB_job_number>12422</JB_job_number><state>qw</state><queue_name></queue_name><slots> 1 </slots><hard_request name='vcs_build'>TRUE</hard_request></job_list>".

Definition job_list_four_requests_xml : string :=
  "<job_list state='pending'><JB_job_number>12422</JB_job_number><state>qw</state><queue_name></queue_name><slots>1</slots><hard_request name='vcs' resource_contribution='0.000000'>TRUE</hard_request><hard_request name='vcs_build' resource_contribution='0.000000'>TRUE</hard_request><hard_request name='h_rt' resource_contribution='0.000000'>86400</hard_request><hard_request name='s_rt' resource_contribution='0.000000'>86400</hard_request></job_list>".

(** The job of the comment of lines 54-68, with its four hard requests. *)
Definition job_list_four_requests : ET.Element :=
  element "job_list" {["state"%string := "pending"%string]} None
    [ element "JB_job_number" ∅ (Some "12422"%string) [];
      element "state" ∅ (Some "qw"%string) [];
      element "queue_name" ∅ None [];
      element "slots" ∅ (Some "1"%string) [];
      hard_request "vcs" "TRUE"; hard_request "vcs_build" "TRUE";
      hard_request "h_rt" "86400"; hard_request "s_rt" "86400" ].

(** [<job_info><queue_info>] job_list [</queue_info></job_info>]: the job
    two levels below the root. *)
Definition job_info : ET.Element :=
  element "job_info" ∅ None [ element "queue_info" ∅ None [ job_list ] ].

Definition job_info_xml : string :=
  "<job_info><queue_info>" +:+ job_list_xml +:+ "</queue_info></job_info>".

(** [<job name="12422"><jobvalue name="slots">1</jobvalue></job>] *)
Definition job_12422 : ET.Element :=
  element "job" {["name"%string := "12422"%string]} None
    [ element "jobvalue" {["name"%string := "slots"%string]} (Some "1"%string) [] ].

(** [<host name="node-a">] job_12422 [</host>] *)
Definition host : ET.Element :=
  element "host" {["name"%string := "node-a"%string]} None [ job_12422 ].

Definition host_xml : string :=
  "<host name='node-a'><job name='12422'><jobvalue name='slots'>1</jobvalue></job></host>".

(** A host record class that keeps its jobs as subtrees. *)
Definition SgeHostType : obj_type := {|
  new := {[ "jobs"%string := VList [] ]};
  MAPPINGS := [ ("job"%string, Mapping (Some "jobs"%string) None (Some "xml"%string)) ]
|}.

(** The record the comment of lines 76-81 prints for that job. *)
Definition expected_job : gmap string value :=
  {[ "number"%string := VStr "12422"; "slots"%string := VInt 1;
     "state"%string := VStr "qw"; "hostname"%string := VNone;
     "hard_request"%string :=
       VList [ VDict [("vcs"%string, VStr "TRUE")];
               VDict [("vcs_build"%string, VStr "TRUE")];
               VDict [("h_rt"%string, VStr "86400")];
               VDict [("s_rt"%string, VStr "86400")] ] ]}.

(** The record of [job_list]. *)
Definition job_list_record : gmap string value :=
  {[ "number"%string := VStr "12422"; "slots"%string := VInt 1;
     "state"%string := VStr "qw"; "hostname"%string := VNone;
     "hard_request"%string := VDict [("vcs_build"%string, VStr "TRUE")] ]}.

(** A parser that knows one document: the text [doc], of tree [root]. *)
Definition parser (doc : string) (root : ET.Element) (xml : string)
    : result ET.Element :=
  if String.eqb xml doc then Ok root else Raise ParseError.

(** A node record class for tables. *)
Definition NodeType : obj_type := {|
  new := {[ "name"%string := VNone; "slots"%string := VInt 0 ]};
  MAPPINGS :=
    [ ("Name"%string, Mapping (Some "name"%string) None None);
      ("Slots"%string, Mapping (Some "slots"%string) (Some int) None) ]
|}.

End DemoXml.

(** ** Tables rendered from cells *)

(** [sep.join(cells)] *)
Fixpoint join (sep : string) (cells : list string) : string :=
  match cells with
  | [] => EmptyString
  | cell :: rest =>
      match rest with
      | [] => cell
      | _ :: _ => cell +:+ sep +:+ join sep rest
      end
  end.

(** The line feed. *)
Definition newline : string := String "010"%char EmptyString.

(** The text of a table: the cells of each line joined by the separator
    character, the lines joined by line feeds. *)
Definition render_table (c : ascii) (header : list string) (rows : list (list string))
    : string :=
  join newline (join (String c EmptyString) <$> header :: rows).

(** A cell that the text of a table can hold: it contains neither the
    separator character nor a line boundary. *)
Definition cell_ok (c : ascii) (cell : string) : bool :=
  all_chars (λ x, negb (Ascii.eqb c x) && negb (Str.is_linebreak x)) cell.

(** ** Record classes for the mapper's edge cases *)

Module DemoMore.

Import Converters DemoXml.

(** A job record class with two keys for the field [label] and an attribute,
    [owner], that no key maps to. *)
Definition JobSummaryType : obj_type := {|
  new := {[ "number"%string := VNone; "label"%string := VStr "";
            "slots"%string := VInt 0; "owner"%string := VStr "nobody" ]};
  MAPPINGS :=
    [ ("JB_job_number"%string, Mapping (Some "number"%string) None None);
      ("JB_name"%string, Mapping (Some "label"%string) None None);
      ("state"%string, Mapping (Some "label"%string) None None);
      ("slots"%string, Mapping (Some "slots"%string) (Some int) None) ]
|}.

(** The record of [job_list] in that class. *)
Definition job_summary : gmap string value :=
  {[ "number"%string := VStr "12422"; "label"%string := VStr "qw";
     "slots"%string := VInt 1; "owner"%string := VStr "nobody" ]}.


(** A queue record class for tables, every entry of which takes the cell as
    it is. *)
Definition QueueType : obj_type := {|
  new := {[ "name"%string := VNone; "state"%string := VStr "" ]};
  MAPPINGS :=
    [ ("Queue"%string, Mapping (Some "name"%string) None None);
      ("State"%string, Mapping (Some "state"%string) None None) ]
|}.

(** Two lines: [Name|Slots] and [node1|4]. *)
Definition node_table : string :=
  "Name|Slots" +:+ String (ascii_of_nat 10) "node1|4".

End DemoMore.

(** * Properties *)

(** ** The error monad *)

Lemma bind_Ok_inv {A B} (m : result A) (k : A → result B) (b : B) :
  m ≫= k = Ok b → ∃ a, m = Ok a ∧ k a = Ok b.
Proof. destruct m as [a|e]; [eauto | discriminate]. Qed.

Lemma collect_total {A B} (f : A → B) (xs : list A) :
  collect (λ x, Ok (f x)) xs = Ok (map f xs).
Proof. induction xs as [|x xs IH]; simpl; [done | by rewrite IH]. Qed.

Lemma for_each_cons {A S} (body : S → A → result S) (x : A) (xs : list A) (acc : S) :
  for_each body (x :: xs) acc = bind (body acc x) (for_each body xs).
Proof. reflexivity. Qed.

(** ** The capacity planner and the busy-node classifier *)

(** *** The greedy pass *)

Lemma scan_slots_placement (job_slots : Z) (avail_slots : list Z) (k m : nat) :
  (k + m = length avail_slots)%nat →
  (∀ (j : nat) (b : Z), (j < k)%nat → avail_slots !! j = Some b → b < job_slots) →
  ∃ avail' found,
    Sge.scan_slots job_slots avail_slots (seq k m) = Ok (avail', found)
    ∧ placement avail_slots job_slots avail' found.
Proof.
  revert k. induction m as [|m IH]; intros k Hlen Hbelow; simpl.
  - exists avail_slots, false. split; [done|]. constructor.
    intros j b Hj. apply (Hbelow j); [|done]. apply lookup_lt_Some in Hj. lia.
  - destruct (lookup_lt_is_Some_2 avail_slots k) as [a Ha]; [lia|].
    rewrite Ha. case_bool_decide as Hle.
    + eexists _, true. split; [done|]. by constructor.
    + apply IH; [lia|]. intros j b Hj Hb.
      destruct (decide (j = k)) as [->|]; [|apply (Hbelow j); [lia|done]].
      rewrite Ha in Hb. injection Hb as <-. lia.
Qed.

Lemma match_job_placement (avail_slots : list Z) (slots : Z) (job : SgeJob.t) :
  ∃ avail' found,
    Sge.match_job (avail_slots, slots) job
    = Ok (avail', if found : bool then slots else slots + SgeJob.slots job)
    ∧ placement avail_slots (SgeJob.slots job) avail' found.
Proof.
  destruct (scan_slots_placement (SgeJob.slots job) avail_slots 0
              (length avail_slots)) as (avail' & found & Hscan & Hplace);
    [done | intros j b Hj; lia |].
  exists avail', found. split; [|done].
  unfold Sge.match_job. by rewrite Hscan.
Qed.

Lemma for_each_matching (jobs : list SgeJob.t) (avail_slots : list Z) (slots : Z) :
  ∃ avail' required,
    for_each Sge.match_job jobs (avail_slots, slots) = Ok (avail', slots + required)
    ∧ matching avail_slots (SgeJob.slots <$> jobs) avail' required.
Proof.
  revert avail_slots slots.
  induction jobs as [|job jobs IH]; intros avail_slots slots.
  - exists avail_slots, 0. split; [simpl; f_equal; f_equal; lia | constructor].
  - destruct (match_job_placement avail_slots slots job)
      as (avail1 & found & Hjob & Hplace).
    destruct (IH avail1 (if found then slots else slots + SgeJob.slots job))
      as (avail' & required & Hrest & Hmatch).
    exists avail', ((if found then 0 else SgeJob.slots job) + required). split.
    + rewrite for_each_cons, Hjob. simpl. rewrite Hrest. f_equal. f_equal.
      destruct found; lia.
    + rewrite fmap_cons. by econstructor.
Qed.

Lemma total_insert (l : list Z) (i : nat) (a b : Z) :
  l !! i = Some a → total (<[i := b]> l) = total l - a + b.
Proof.
  revert i. induction l as [|x l IH]; intros [|i] Hi; simplify_eq/=.
  - unfold total. simpl. lia.
  - unfold total in *. simpl. rewrite (IH i Hi). lia.
Qed.

Lemma placement_total (avail avail' : list Z) (d : Z) (found : bool) :
  placement avail d avail' found →
  total avail - total avail' = if found then d else 0.
Proof.
  intros [i a Hi _ _|_]; [|lia]. rewrite (total_insert _ _ _ _ Hi). lia.
Qed.

Lemma matching_conservation (avail avail' : list Z) (ds : list Z) (required : Z) :
  matching avail ds avail' required →
  required + (total avail - total avail') = total ds.
Proof.
  induction 1 as [avail|avail avail1 avail' d ds found required Hplace _ IH].
  - unfold total. simpl. lia.
  - apply placement_total in Hplace. change (total (d :: ds)) with (d + total ds).
    destruct found; lia.
Qed.

Lemma placement_pointwise (avail avail' : list Z) (d : Z) (found : bool) :
  placement avail d avail' found →
  Forall2 (λ a a', a' = a ∨ (d ≤ a ∧ a' = a - d)) avail avail'.
Proof.
  intros [i a Hi Hle _|_].
  - apply Forall2_same_length_lookup_2; [by rewrite length_insert|].
    intros j x y Hx Hy. destruct (decide (i = j)) as [->|Hne].
    + rewrite list_lookup_insert_eq in Hy; [|by eapply lookup_lt_Some].
      simplify_eq. by right.
    + rewrite list_lookup_insert_ne in Hy; [|done]. simplify_eq. by left.
  - apply Forall2_same_length_lookup_2; [done|].
    intros j x y Hx Hy. simplify_eq. by left.
Qed.

Lemma matching_nonneg (avail avail' : list Z) (ds : list Z) (required : Z) :
  matching avail ds avail' required →
  Forall2 (λ a a', 0 ≤ a → 0 ≤ a') avail avail'.
Proof.
  induction 1 as [avail|avail avail1 avail' d ds found required Hplace _ IH].
  - apply Forall2_same_length_lookup_2; [done|]. intros; simplify_eq. done.
  - apply placement_pointwise in Hplace.
    assert (Forall2 (λ a a', 0 ≤ a → 0 ≤ a') avail avail1) as Hfirst.
    { eapply Forall2_impl; [exact Hplace|]. simpl. intros x y [->|[? ->]] ?; lia. }
    eapply Forall2_trans; [|exact Hfirst|exact IH].
    simpl. intros x y z Hxy Hyz ?. auto.
Qed.

(** *** The greedy pass uses no more than the free capacity *)

Lemma placement_capacity (avail avail' : list Z) (d : Z) (found : bool) :
  placement avail d avail' found →
  (total avail - total avail') + free_capacity avail' ≤ free_capacity avail.
Proof.
  intros [i a Hi Hle _|_]. 2:{ lia. }
  unfold free_capacity. rewrite list_fmap_insert.
  rewrite (total_insert _ _ _ _ Hi).
  rewrite (total_insert _ i (Z.max 0 a)) by (by rewrite list_lookup_fmap, Hi).
  rewrite (Z.max_r 0 (a - d)) by lia. pose proof (Z.le_max_r 0 a). lia.
Qed.

Lemma free_capacity_nonneg (avail : list Z) : 0 ≤ free_capacity avail.
Proof.
  induction avail as [|a avail IH]; [done|].
  change (free_capacity (a :: avail)) with (Z.max 0 a + free_capacity avail).
  pose proof (Z.le_max_l 0 a). lia.
Qed.

Lemma matching_capacity (avail avail' : list Z) (ds : list Z) (required : Z) :
  matching avail ds avail' required →
  (total avail - total avail') + free_capacity avail' ≤ free_capacity avail.
Proof.
  induction 1 as [avail|avail avail1 avail' d ds found required Hplace _ IH]; [lia|].
  apply placement_capacity in Hplace. lia.
Qed.

(** *** The greedy pass is a feasible assignment *)

Lemma load_unassigned (f : list (option nat)) (ds : list Z) (i : nat) :
  Some i ∉ f → Assignment.load f ds i = 0.
Proof.
  revert ds. induction f as [|o f IH]; intros [|d ds] Hi; simpl; try done.
  apply not_elem_of_cons in Hi as [Hne Hi].
  rewrite bool_decide_eq_false_2 by done. rewrite IH by done. lia.
Qed.

Lemma matching_assignment (avail avail' : list Z) (ds : list Z) (required : Z) :
  matching avail ds avail' required →
  ∃ f : list (option nat),
    length f = length ds
    ∧ Assignment.unmet f ds = required
    ∧ (∀ i : nat, avail' !! i = (λ c, c - Assignment.load f ds i) <$> avail !! i)
    ∧ (∀ i : nat, Some i ∈ f → ∃ c', avail' !! i = Some c' ∧ 0 ≤ c').
Proof.
  induction 1 as [avail|avail avail1 avail' d ds found required Hplace _ IH].
  - exists []. repeat split; [|by intros i ?%elem_of_nil].
    intros i. simpl. destruct (avail !! i); simpl; f_equal; lia.
  - destruct IH as (f & Hlen & Hunmet & Hres & Hpos).
    destruct Hplace as [i0 a Hi0 Hle _|_].
    + exists (Some i0 :: f). repeat split.
      * simpl. by rewrite Hlen.
      * simpl. lia.
      * intros i. rewrite Hres. simpl.
        destruct (decide (i0 = i)) as [->|Hne].
        -- rewrite list_lookup_insert_eq by (by eapply lookup_lt_Some).
           rewrite Hi0, bool_decide_eq_true_2 by done. simpl. f_equal. lia.
        -- rewrite list_lookup_insert_ne by done.
           rewrite bool_decide_eq_false_2 by congruence.
           destruct (avail !! i); simpl; f_equal; lia.
      * intros i [Hi|Hi]%elem_of_cons; [|by apply Hpos].
        injection Hi as ->.
        destruct (decide (Some i0 ∈ f)) as [Hin|Hout]; [by apply Hpos|].
        rewrite Hres, list_lookup_insert_eq by (by eapply lookup_lt_Some).
        rewrite load_unassigned by done. simpl. eexists. split; [done|lia].
    + exists (None :: f). repeat split.
      * simpl. by rewrite Hlen.
      * simpl. lia.
      * intros i. rewrite Hres. simpl.
        destruct (avail !! i); simpl; f_equal; lia.
      * intros i [Hi|Hi]%elem_of_cons; [done|by apply Hpos].
Qed.

Lemma matching_feasible (avail avail' : list Z) (ds : list Z) (required : Z) :
  matching avail ds avail' required →
  ∃ f : list (option nat),
    Assignment.feasible avail ds f = true ∧ Assignment.unmet f ds = required.
Proof.
  intros (f & Hlen & Hunmet & Hres & Hpos)%matching_assignment.
  exists f. split; [|done]. unfold Assignment.feasible.
  apply andb_true_iff. split; [by apply bool_decide_eq_true_2|].
  apply forallb_forall. intros [i|] Hin%list_elem_of_In; [|done].
  destruct (Hpos i Hin) as (c' & Hc' & Hnonneg). rewrite Hres in Hc'.
  destruct (avail !! i) as [c|]; simplify_eq/=.
  apply bool_decide_eq_true_2. lia.
Qed.

Lemma neg_floordiv_is_ceiling (r v : Z) : v ≠ 0 → - ((- r) / v) = ceil_div r v.
Proof.
  intros Hv.
  unfold ceil_div, Qround.Qceiling, Qround.Qfloor, QArith_base.Qdiv,
    QArith_base.Qmult, QArith_base.Qinv, QArith_base.inject_Z, QArith_base.Qopp.
  destruct v as [|p|p]; [done| |]; simpl.
  - by rewrite Z.mul_1_r.
  - f_equal. rewrite <- (Z.div_opp_opp (- r) (Z.neg p)) by done.
    f_equal; lia.
Qed.

(** *** The busy-node count *)

Lemma has_busy_condition_spec (busy_tokens : list string) (node : SgeHost.t) :
  Sge.has_busy_condition busy_tokens node = true
  ↔ Exists (λ token, token ∈ SgeHost.state node) busy_tokens
    ∨ 0 < SgeHost.slots_used node
    ∨ 0 < SgeHost.slots_reserved node.
Proof.
  unfold Sge.has_busy_condition.
  rewrite !orb_true_iff, !bool_decide_eq_true, existsb_exists, Exists_exists.
  split.
  - intros [[(token & Hin & Hstate)|Hused]|Hres]; [left|auto..].
    exists token. split; [by apply list_elem_of_In|by apply bool_decide_eq_true_1 in Hstate].
  - intros [(token & Hin & Hstate)|[Hused|Hres]]; [left; left|auto..].
    exists token. split; [by apply list_elem_of_In|by apply bool_decide_eq_true_2].
Qed.

Lemma count_loop (busy_tokens : list string) (orphaned : string)
    (nodes : list SgeHost.t) (n : Z) :
  fold_left (λ busy_nodes node,
               if Sge.has_busy_condition busy_tokens node then
                 if bool_decide (orphaned ∈ SgeHost.state node)
                 then busy_nodes
                 else busy_nodes + 1
               else busy_nodes)
            nodes n
  = n + Z.of_nat (length (filter (counts_as_busy busy_tokens orphaned) nodes)).
Proof.
  revert n. induction nodes as [|node nodes IH]; intros n; [simpl; lia|].
  cbn [fold_left]. rewrite IH, filter_cons.
  pose proof (has_busy_condition_spec busy_tokens node) as Hbusy.
  destruct (Sge.has_busy_condition busy_tokens node).
  - case_bool_decide as Horphan.
    + rewrite decide_False; [done|]. by intros [_ ?].
    + rewrite decide_True; [simpl; lia|]. split; [by apply Hbusy|done].
  - rewrite decide_False; [done|]. intros [Hcond _]. by apply Hbusy in Hcond.
Qed.

Module PlannerProps.
Section Planner.

Variable SGE_HOLD_STATE : string.
Variable get_compute_nodes_info : list (string * SgeHost.t).
Variable get_pending_jobs_info : Z → string → list SgeJob.t.
Variable instance_properties : gmap string Z.
Variable max_size : Z.

Local Abbreviation build_avail_slots :=
  (Sge.build_avail_slots get_compute_nodes_info instance_properties).
Local Abbreviation run_matching :=
  (Sge.run_matching SGE_HOLD_STATE get_compute_nodes_info get_pending_jobs_info
     instance_properties max_size).
Local Abbreviation _get_required_slots :=
  (Sge._get_required_slots SGE_HOLD_STATE get_compute_nodes_info
     get_pending_jobs_info instance_properties max_size).
Local Abbreviation get_required_nodes :=
  (Sge.get_required_nodes SGE_HOLD_STATE get_compute_nodes_info
     get_pending_jobs_info instance_properties max_size).

Lemma get_slots_ok (v : Z) :
  instance_properties !! "slots"%string = Some v →
  Sge.get_slots instance_properties = Ok v.
Proof. unfold Sge.get_slots. by intros ->. Qed.

Lemma build_avail_slots_ok (v : Z) :
  instance_properties !! "slots"%string = Some v →
  build_avail_slots
  = Ok (merge_sort Z.le
          ((λ node, v - SgeHost.slots_used node - SgeHost.slots_reserved node)
             <$> get_compute_nodes_info.*2)).
Proof.
  intros Hv. unfold Sge.build_avail_slots. rewrite (get_slots_ok v Hv).
  simpl. by rewrite collect_total.
Qed.

Lemma run_matching_ok (v : Z) :
  instance_properties !! "slots"%string = Some v →
  ∃ avail0 avail1 required,
    build_avail_slots = Ok avail0
    ∧ run_matching = Ok (avail1, required)
    ∧ _get_required_slots = Ok required
    ∧ matching avail0
        (SgeJob.slots <$> get_pending_jobs_info (max_size * v) SGE_HOLD_STATE)
        avail1 required.
Proof.
  intros Hv. pose proof (build_avail_slots_ok v Hv) as Hbuild.
  destruct (Sge.build_avail_slots _ _) as [avail0|]; [|done].
  destruct (for_each_matching
              (get_pending_jobs_info (max_size * v) SGE_HOLD_STATE) avail0 0)
    as (avail1 & required & Hloop & Hmatch).
  exists avail0, avail1, required.
  assert (run_matching = Ok (avail1, required)) as Hrun.
  { unfold Sge.run_matching.
    rewrite (build_avail_slots_ok v Hv), <- Hbuild, (get_slots_ok v Hv). simpl.
    by rewrite Hloop. }
  repeat split; [done..| |done].
  unfold Sge._get_required_slots. by rewrite Hrun.
Qed.

Local Abbreviation pending_jobs v :=
  (get_pending_jobs_info (max_size * v) SGE_HOLD_STATE).

(** C1. When the sorted available slots are [0; 2; 4], the nodes have four
    slots each and the pending jobs ask for 1, 3 and 5 slots in that
    order, [_get_required_slots] returns 5 (the list ends as [0; 1; 1])
    and [get_required_nodes] returns 2. In general, for a non-zero number
    of slots per instance, [get_required_nodes] returns the ceiling of the
    required slots divided by that number. *)
Theorem required_nodes_scenario_and_ceiling :
  (instance_properties !! "slots"%string = Some 4 →
   build_avail_slots = Ok [0; 2; 4] →
   SgeJob.slots <$> pending_jobs 4 = [1; 3; 5] →
   run_matching = Ok ([0; 1; 1], 5)
   ∧ _get_required_slots = Ok 5
   ∧ get_required_nodes = Ok 2)
  ∧ (∀ v required : Z,
       instance_properties !! "slots"%string = Some v →
       v ≠ 0 →
       _get_required_slots = Ok required →
       ∃ q : Z,
         get_required_nodes = Ok q
         ∧ q = ceil_div required v
         ∧ (0 < v → (q - 1) * v < required ≤ q * v)
         ∧ (v < 0 → q * v ≤ required < (q - 1) * v)).
Proof.
  split.
  - intros Hv Havail Hjobs.
    assert (run_matching = Ok ([0; 1; 1], 5)) as Hrun.
    { unfold Sge.run_matching.
      rewrite Havail, (get_slots_ok 4 Hv). simpl.
      destruct (get_pending_jobs_info (max_size * 4) SGE_HOLD_STATE)
        as [|[n1 s1 t1] [|[n2 s2 t2] [|[n3 s3 t3] [|]]]]; simplify_eq/=.
      reflexivity. }
    assert (_get_required_slots = Ok 5) as Hreq.
    { unfold Sge._get_required_slots. by rewrite Hrun. }
    repeat split; [done..|].
    unfold Sge.get_required_nodes.
    rewrite Hreq, (get_slots_ok 4 Hv). reflexivity.
  - intros v required Hv Hnz Hreq.
    exists (- ((- required) / v)). split.
    + unfold Sge.get_required_nodes.
      rewrite Hreq, (get_slots_ok v Hv). simpl.
      by rewrite bool_decide_eq_false_2.
    + pose proof (Z.div_mod (- required) v Hnz) as Hdiv.
      split; [by apply neg_floordiv_is_ceiling|].
      split; intros Hsign.
      * pose proof (Z.mod_pos_bound (- required) v Hsign). nia.
      * pose proof (Z.mod_neg_bound (- required) v Hsign). nia.
Qed.

(** C2. The required slots plus the decrements applied to the available
    slots (the sum of the list before minus the sum after) equal the sum
    of the slots of the pending jobs; each job either takes its full
    demand from exactly one entry or adds its full demand to the total. *)
Theorem planner_conservation :
  (∀ v : Z,
     instance_properties !! "slots"%string = Some v →
     ∃ (avail0 avail1 : list Z) (required : Z),
       build_avail_slots = Ok avail0
       ∧ run_matching = Ok (avail1, required)
       ∧ _get_required_slots = Ok required
       ∧ required + (total avail0 - total avail1)
         = total (SgeJob.slots <$> pending_jobs v))
  ∧ (∀ (avail_slots : list Z) (slots : Z) (job : SgeJob.t),
       ∃ (avail' : list Z) (found : bool),
         Sge.match_job (avail_slots, slots) job
         = Ok (avail', if found then slots else slots + SgeJob.slots job)
         ∧ placement avail_slots (SgeJob.slots job) avail' found
         ∧ total avail_slots - total avail'
           = (if found then SgeJob.slots job else 0)).
Proof.
  split.
  - intros v Hv.
    destruct (run_matching_ok v Hv)
      as (avail0 & avail1 & required & Hbuild & Hrun & Hreq & Hmatch).
    exists avail0, avail1, required. repeat split; try done.
    by apply matching_conservation.
  - intros avail_slots slots job.
    destruct (match_job_placement avail_slots slots job)
      as (avail' & found & Hjob & Hplace).
    exists avail', found. repeat split; try done.
    by apply placement_total.
Qed.

(** C7. The required slots are the unmet demand of a feasible assignment
    of the pending jobs to the initial available slots, so they are at
    least the demand that every feasible assignment leaves unmet; they are
    also at least the total demand less the free slots of all nodes. *)
Theorem required_slots_cover_unmet_demand (v : Z) :
  instance_properties !! "slots"%string = Some v →
  ∃ (avail0 : list Z) (required : Z),
    build_avail_slots = Ok avail0
    ∧ _get_required_slots = Ok required
    ∧ (∃ f : list (option nat),
         Assignment.feasible avail0 (SgeJob.slots <$> pending_jobs v) f = true
         ∧ Assignment.unmet f (SgeJob.slots <$> pending_jobs v) = required)
    ∧ (∀ unmet_demand : Z,
         (∀ f : list (option nat),
            Assignment.feasible avail0 (SgeJob.slots <$> pending_jobs v) f = true →
            unmet_demand ≤ Assignment.unmet f (SgeJob.slots <$> pending_jobs v)) →
         unmet_demand ≤ required)
    ∧ total (SgeJob.slots <$> pending_jobs v) - free_capacity avail0 ≤ required.
Proof.
  intros Hv.
  destruct (run_matching_ok v Hv)
    as (avail0 & avail1 & required & Hbuild & Hrun & Hreq & Hmatch).
  destruct (matching_feasible _ _ _ _ Hmatch) as (f & Hfeasible & Hunmet).
  exists avail0, required. repeat split; try done.
  - by exists f.
  - intros unmet_demand Hlower. rewrite <- Hunmet. by apply Hlower.
  - pose proof (matching_conservation _ _ _ _ Hmatch).
    pose proof (matching_capacity _ _ _ _ Hmatch).
    pose proof (free_capacity_nonneg avail1). lia.
Qed.

(** C10. An entry of the available slots is decremented only by a demand it
    covers, so an entry that is non-negative before the jobs are processed
    is non-negative after any number of them. *)
Theorem matching_keeps_slots_nonnegative :
  (∀ (avail_slots avail' : list Z) (slots slots' : Z) (job : SgeJob.t),
     Sge.match_job (avail_slots, slots) job = Ok (avail', slots') →
     Forall2 (λ a a', a' = a ∨ (SgeJob.slots job ≤ a ∧ a' = a - SgeJob.slots job))
             avail_slots avail')
  ∧ (∀ (jobs : list SgeJob.t) (avail_slots : list Z) (slots : Z),
       ∃ (avail' : list Z) (slots' : Z),
         for_each Sge.match_job jobs (avail_slots, slots) = Ok (avail', slots')
         ∧ Forall2 (λ a a', 0 ≤ a → 0 ≤ a') avail_slots avail')
  ∧ (∀ v : Z,
       instance_properties !! "slots"%string = Some v →
       ∃ (avail0 avail1 : list Z) (required : Z),
         build_avail_slots = Ok avail0
         ∧ run_matching = Ok (avail1, required)
         ∧ Forall2 (λ a a', 0 ≤ a → 0 ≤ a') avail0 avail1).
Proof.
  repeat split.
  - intros avail_slots avail' slots slots' job Hjob.
    destruct (match_job_placement avail_slots slots job)
      as (avail'' & found & Hjob' & Hplace).
    rewrite Hjob' in Hjob. injection Hjob as <- _.
    by eapply placement_pointwise.
  - intros jobs avail_slots slots.
    destruct (for_each_matching jobs avail_slots slots)
      as (avail' & required & Hloop & Hmatch).
    exists avail', (slots + required). split; [done|].
    by eapply matching_nonneg.
  - intros v Hv.
    destruct (run_matching_ok v Hv)
      as (avail0 & avail1 & required & Hbuild & Hrun & Hreq & Hmatch).
    exists avail0, avail1, required. repeat split; try done.
    by eapply matching_nonneg.
Qed.

End Planner.

(** C6. [get_busy_nodes] counts the nodes whose state has a busy token, or
    that have used or reserved slots, leaving out those whose state has the
    orphaned token; for the nodes A (2 slots used), B (orphaned, 3 slots
    used) and C (idle) the count is 1. *)
Theorem busy_nodes_count (SGE_BUSY_STATES : list string) :
  (∀ (SGE_ORPHANED_STATE : string)
     (get_compute_nodes_info : list (string * SgeHost.t)),
     Sge.get_busy_nodes SGE_BUSY_STATES SGE_ORPHANED_STATE get_compute_nodes_info
     = Z.of_nat
         (length (filter (counts_as_busy SGE_BUSY_STATES SGE_ORPHANED_STATE)
                    (get_compute_nodes_info.*2))))
  ∧ (∀ (a b c : string) (a_reserved b_reserved : Z),
       Sge.get_busy_nodes SGE_BUSY_STATES "orphaned"
         [ (a, SgeHost.Build a ∅ 2 a_reserved);
           (b, SgeHost.Build b {["orphaned"%string]} 3 b_reserved);
           (c, SgeHost.Build c ∅ 0 0) ]
       = 1).
Proof.
  split.
  - intros SGE_ORPHANED_STATE get_compute_nodes_info.
    unfold Sge.get_busy_nodes. by rewrite count_loop.
  - intros a b c a_reserved b_reserved.
    unfold Sge.get_busy_nodes. rewrite count_loop.
    cbn [fmap list_fmap snd]. rewrite !filter_cons, filter_nil.
    rewrite decide_True; last first.
    { split; [right; left; simpl; lia | set_solver]. }
    rewrite decide_False; last first.
    { intros [_ Horphan]. apply Horphan. simpl. set_solver. }
    rewrite decide_False; [done|].
    intros [[Htoken|[Hused|Hreserved]] _]; simpl in *; [|lia..].
    apply Exists_exists in Htoken as (token & _ & Hin). set_solver.
Qed.
End PlannerProps.

(** *** The theorems at the snapshot of [Demo] *)

Lemma demo_unmet_lower_bound (f : list (option nat)) :
  Assignment.feasible [0; 2; 4] [1; 3; 5] f = true →
  5 ≤ Assignment.unmet f [1; 3; 5].
Proof.
  destruct f as [|o1 [|o2 [|o3 [|]]]]; try discriminate.
  destruct o3 as [i3|]; [|destruct o1, o2; simpl; lia].
  destruct i3 as [|[|[|i3]]], o1 as [[|[|[|i1]]]|], o2 as [[|[|[|i2]]]|];
    vm_compute; discriminate.
Qed.

Lemma required_nodes_scenario_witness :
  (Sge.run_matching "h" Demo.nodes Demo.pending_jobs Demo.instance_properties 10
   = Ok ([0; 1; 1], 5)
   ∧ Sge._get_required_slots "h" Demo.nodes Demo.pending_jobs
       Demo.instance_properties 10 = Ok 5
   ∧ Sge.get_required_nodes "h" Demo.nodes Demo.pending_jobs
       Demo.instance_properties 10 = Ok 2)
  ∧ ∃ q : Z,
      Sge.get_required_nodes "h" Demo.nodes Demo.pending_jobs
        Demo.instance_properties 10 = Ok q
      ∧ q = ceil_div 5 4
      ∧ (0 < 4 → (q - 1) * 4 < 5 ≤ q * 4)
      ∧ (4 < 0 → q * 4 ≤ 5 < (q - 1) * 4).
Proof.
  split.
  - apply (proj1 (PlannerProps.required_nodes_scenario_and_ceiling
                    "h" Demo.nodes Demo.pending_jobs Demo.instance_properties 10));
      reflexivity.
  - apply (proj2 (PlannerProps.required_nodes_scenario_and_ceiling
                    "h" Demo.nodes Demo.pending_jobs Demo.instance_properties 10));
      [reflexivity | lia | reflexivity].
Defined.

Lemma planner_conservation_witness :
  ∃ (avail0 avail1 : list Z) (required : Z),
    Sge.build_avail_slots Demo.nodes Demo.instance_properties = Ok avail0
    ∧ Sge.run_matching "h" Demo.nodes Demo.pending_jobs Demo.instance_properties 10
      = Ok (avail1, required)
    ∧ Sge._get_required_slots "h" Demo.nodes Demo.pending_jobs
        Demo.instance_properties 10 = Ok required
    ∧ required + (total avail0 - total avail1)
      = total (SgeJob.slots <$> Demo.pending_jobs (10 * 4) "h").
Proof.
  apply (proj1 (PlannerProps.planner_conservation
                  "h" Demo.nodes Demo.pending_jobs Demo.instance_properties 10) 4).
  reflexivity.
Defined.

Lemma required_slots_cover_unmet_demand_witness :
  ∃ required : Z,
    Sge._get_required_slots "h" Demo.nodes Demo.pending_jobs
      Demo.instance_properties 10 = Ok required
    ∧ 5 ≤ required.
Proof.
  destruct (PlannerProps.required_slots_cover_unmet_demand
              "h" Demo.nodes Demo.pending_jobs Demo.instance_properties 10 4
              eq_refl)
    as (avail0 & required & Hbuild & Hrequired & _ & Hlower & _).
  exists required. split; [exact Hrequired|].
  apply Hlower. injection Hbuild as <-. exact demo_unmet_lower_bound.
Defined.

Lemma matching_keeps_slots_nonnegative_witness :
  Forall2 (λ a a', a' = a ∨ (1 ≤ a ∧ a' = a - 1)) [0; 2; 4] [0; 1; 4]
  ∧ ∃ (avail0 avail1 : list Z) (required : Z),
      Sge.build_avail_slots Demo.nodes Demo.instance_properties = Ok avail0
      ∧ Sge.run_matching "h" Demo.nodes Demo.pending_jobs Demo.instance_properties 10
        = Ok (avail1, required)
      ∧ Forall2 (λ a a', 0 ≤ a → 0 ≤ a') avail0 avail1.
Proof.
  split.
  - apply (proj1 (PlannerProps.matching_keeps_slots_nonnegative
                    "h" Demo.nodes Demo.pending_jobs Demo.instance_properties 10)
             [0; 2; 4] [0; 1; 4] 0 0 (SgeJob.Build "101" 1 "qw")).
    reflexivity.
  - apply (proj2 (proj2 (PlannerProps.matching_keeps_slots_nonnegative
                           "h" Demo.nodes Demo.pending_jobs
                           Demo.instance_properties 10)) 4).
    reflexivity.
Defined.

(** ** The declarative mapper *)

(** *** Strings *)

Lemma append_cons (c : ascii) (s1 s2 : string) :
  String c s1 +:+ s2 = String c (s1 +:+ s2).
Proof. reflexivity. Qed.

Lemma append_nil_l (s : string) : "" +:+ s = s.
Proof. reflexivity. Qed.

Lemma append_assoc (s1 s2 s3 : string) : (s1 +:+ s2) +:+ s3 = s1 +:+ (s2 +:+ s3).
Proof.
  induction s1 as [|c s1 IH]; [done|]. by rewrite !append_cons, IH.
Qed.

Lemma append_nil_r (s : string) : s +:+ "" = s.
Proof. induction s as [|c s IH]; [done|]. by rewrite append_cons, IH. Qed.

Lemma lstrip_spec (s : string) :
  ∃ pre : string,
    s = pre +:+ Str.lstrip s
    ∧ all_chars Str.isspace pre = true
    ∧ (∀ c, first_char (Str.lstrip s) = Some c → Str.isspace c = false).
Proof.
  induction s as [|c s (pre & Hs & Hpre & Hfirst)]; simpl.
  - exists "". by repeat split.
  - destruct (Str.isspace c) eqn:Hc.
    + exists (String c pre). rewrite append_cons. simpl. rewrite Hc, Hpre. by rewrite <- Hs.
    + exists "". repeat split. simpl. by intros ? [= <-].
Qed.

Lemma rstrip_spec (s : string) :
  ∃ post : string,
    s = Str.rstrip s +:+ post
    ∧ all_chars Str.isspace post = true
    ∧ (∀ c, Str.last_char (Str.rstrip s) = Some c → Str.isspace c = false)
    ∧ (∀ c, first_char s = Some c → Str.isspace c = false →
            first_char (Str.rstrip s) = Some c).
Proof.
  induction s as [|c s (post & Hs & Hpost & Hlast & _)]; simpl.
  - exists "". by repeat split.
  - destruct (Str.rstrip s) as [|k kept] eqn:Hkept.
    + rewrite append_nil_l in Hs. subst post.
      destruct (Str.isspace c) eqn:Hc.
      * exists (String c s). rewrite append_nil_l. simpl. rewrite Hc, Hpost.
        repeat split; try done. intros c0 ? ?. simplify_eq. congruence.
      * exists s. rewrite append_cons, append_nil_l. simpl.
        repeat split; try done; intros c0 ?; by simplify_eq.
    + exists post. rewrite append_cons, <- Hs.
      repeat split; try done.
Qed.

Lemma strip_spec (s : string) :
  ∃ pre post : string,
    s = pre +:+ Str.strip s +:+ post
    ∧ all_chars Str.isspace pre = true
    ∧ all_chars Str.isspace post = true
    ∧ trimmed (Str.strip s).
Proof.
  destruct (lstrip_spec s) as (pre & Hs & Hpre & Hfirst).
  destruct (rstrip_spec (Str.lstrip s)) as (post & Hl & Hpost & Hlast & Hkeep).
  exists pre, post. unfold Str.strip, trimmed. repeat split; try done.
  - by rewrite <- Hl.
  - intros c Hc. destruct (Str.lstrip s) as [|c' rest] eqn:Hls; [done|].
    destruct (Str.isspace c') eqn:Hc'.
    + by rewrite (Hfirst c' eq_refl) in Hc'.
    + rewrite (Hkeep c' eq_refl Hc') in Hc. by injection Hc as <-.
Qed.

(** *** Paths that are a tag name *)

Lemma name_char_not_slash (c : ascii) :
  ET.is_name_char c = true → ET.is_slash c = false.
Proof.
  unfold ET.is_name_char, ET.is_plain, ET.is_dot, ET.is_star, ET.is_slash.
  destruct (Str.code c =? 47)%N eqn:Hc; [|done].
  apply N.eqb_eq in Hc. by rewrite Hc.
Qed.

Lemma plain_is_name_char (c : ascii) : ET.is_plain c = true → ET.is_name_char c = true.
Proof. unfold ET.is_name_char. by intros ->. Qed.

Lemma tokens_from_name (rest name : string) :
  all_chars ET.is_name_char rest = true →
  ET.tokens_from rest (Some name) = Ok [ET.TName (name +:+ rest)].
Proof.
  revert name. induction rest as [|c rest IH]; intros name Hrest.
  - simpl. by rewrite append_nil_r.
  - simpl in Hrest. apply andb_true_iff in Hrest as [Hc Hrest].
    cbn [ET.tokens_from]. rewrite Hc, (IH _ Hrest).
    by rewrite append_assoc, append_cons, append_nil_l.
Qed.

Lemma tokenizer_tag_name (k : string) :
  is_tag_name k = true → ET.tokens_from k None = Ok [ET.TName k].
Proof.
  destruct k as [|c rest]; [done|]. intros [Hc Hrest]%andb_true_iff.
  cbn [ET.tokens_from]. rewrite Hc, (tokens_from_name _ _ Hrest).
  by rewrite append_cons, append_nil_l.
Qed.

Lemma last_char_all (p : ascii → bool) (s : string) (c : ascii) :
  all_chars p s = true → Str.last_char s = Some c → p c = true.
Proof.
  induction s as [|c' [|c'' s] IH]; [done| |].
  - simpl. intros Hc' [= <-]. by rewrite andb_true_r in Hc'.
  - intros [_ Hs]%andb_true_iff Hlast. by apply IH.
Qed.

Lemma tag_name_all_name_chars (k : string) :
  is_tag_name k = true → all_chars ET.is_name_char k = true.
Proof.
  destruct k as [|c rest]; [done|]. intros [Hc Hrest]%andb_true_iff.
  simpl. by rewrite (plain_is_name_char _ Hc).
Qed.

Lemma last_char_append (s k : string) :
  k ≠ "" → Str.last_char (s +:+ k) = Str.last_char k.
Proof.
  intros Hk. induction s as [|c s IH]; [done|].
  rewrite append_cons. simpl. rewrite IH.
  destruct (s +:+ k) eqn:Hsk; [|done].
  destruct s, k; done.
Qed.

Lemma findall_tag_name (root : ET.Element) (k : string) :
  is_tag_name k = true →
  ET.findall root k = Ok (List.filter (ET.tag_is k) (ET.children root)).
Proof.
  intros Hk. unfold ET.findall.
  assert (match Str.last_char k with
          | Some c => if ET.is_slash c then k +:+ "*" else k
          | None => k
          end = k) as ->.
  { destruct (Str.last_char k) as [c|] eqn:Hlast; [|done].
    by rewrite (name_char_not_slash c
                  (last_char_all _ _ _ (tag_name_all_name_chars _ Hk) Hlast)). }
  assert (Str.startswith "/" k = false) as ->.
  { destruct k as [|c rest]; [done|]. apply andb_true_iff in Hk as [Hc _].
    cbn [Str.startswith]. rewrite andb_true_r. apply Ascii.eqb_neq. by intros <-. }
  unfold ET.xpath_tokenizer. rewrite (tokenizer_tag_name _ Hk). simpl.
  by rewrite app_nil_r.
Qed.

Lemma findall_descendant_tag_name (root : ET.Element) (k : string) :
  is_tag_name k = true →
  ET.findall root (".//" +:+ k)
  = Ok (List.filter (ET.tag_is k) (ET.descendants root)).
Proof.
  intros Hk. unfold ET.findall.
  assert (k ≠ "") as Hne by (by destruct k).
  assert (match Str.last_char (".//" +:+ k) with
          | Some c => if ET.is_slash c then (".//" +:+ k) +:+ "*" else ".//" +:+ k
          | None => ".//" +:+ k
          end = ".//" +:+ k) as ->.
  { rewrite (last_char_append _ _ Hne).
    destruct (Str.last_char k) as [c|] eqn:Hlast; [|done].
    by rewrite (name_char_not_slash c
                  (last_char_all _ _ _ (tag_name_all_name_chars _ Hk) Hlast)). }
  rewrite !append_cons, append_nil_l.
  change (Str.startswith "/" (String "." (String "/" (String "/" k)))) with false.
  unfold ET.xpath_tokenizer. cbn [ET.tokens_from].
  change (ET.is_plain ".") with false. change (ET.is_slash ".") with false.
  change (ET.is_star ".") with false. change (ET.is_dot ".") with true.
  change (ET.is_dot "/") with false. change (ET.is_plain "/") with false.
  change (ET.is_slash "/") with true. cbn iota.
  rewrite (tokenizer_tag_name _ Hk). simpl.
  by rewrite app_nil_r.
Qed.

(** *** The loop over [MAPPINGS] *)

Import Converters.

Lemma map_tag_spec (root : ET.Element) (obj obj' : gmap string value)
    (tag : string) (m : mapping) :
  map_tag root obj (tag, m) = Ok obj' →
  ∃ (results : list ET.Element) (values : list value),
    ET.findall root tag = Ok results
    ∧ values_of m results = Ok values
    ∧ match values with
      | [] => obj' = obj
      | _ :: _ => ∃ f, field m = Some f ∧ obj' = <[f := aggregate values]> obj
      end.
Proof.
  unfold map_tag. intros (results & Hfind & Hrest)%bind_Ok_inv.
  apply bind_Ok_inv in Hrest as (values & Hvalues & Hset).
  exists results, values. repeat split; [done..|].
  destruct values as [|v values]; [by injection Hset as <-|].
  unfold field_of in Hset. destruct (field m) as [f|]; [|done].
  exists f. split; [done|]. by injection Hset as <-.
Qed.

Lemma map_tag_frame (root : ET.Element) (obj obj' : gmap string value)
    (tag : string) (m : mapping) (f : string) :
  map_tag root obj (tag, m) = Ok obj' →
  field m ≠ Some f →
  obj' !! f = obj !! f.
Proof.
  intros (results & values & _ & _ & Hobj)%map_tag_spec Hf.
  destruct values as [|v values]; [by subst|].
  destruct Hobj as (f' & Hf' & ->). apply lookup_insert_ne. congruence.
Qed.

Lemma for_each_map_tag_frame (root : ET.Element) (mappings : list (string * mapping))
    (obj obj' : gmap string value) (f : string) :
  for_each (map_tag root) mappings obj = Ok obj' →
  Some f ∉ target_fields mappings →
  obj' !! f = obj !! f.
Proof.
  revert obj. induction mappings as [|[tag m] mappings IH]; intros obj.
  - by intros [= <-].
  - rewrite for_each_cons. intros (obj1 & Hstep & Hrest)%bind_Ok_inv.
    intros [Hm Hf]%not_elem_of_cons.
    rewrite (IH _ Hrest Hf). eapply map_tag_frame; [done|].
    intros Heq. apply Hm. simpl. by rewrite Heq.
Qed.

Lemma for_each_map_tag_field (root : ET.Element) (mappings : list (string * mapping))
    (obj obj' : gmap string value) (tag : string) (m : mapping) (f : string) :
  for_each (map_tag root) mappings obj = Ok obj' →
  NoDup (target_fields mappings) →
  (tag, m) ∈ mappings →
  field m = Some f →
  ∃ (results : list ET.Element) (values : list value),
    ET.findall root tag = Ok results
    ∧ values_of m results = Ok values
    ∧ obj' !! f = match values with
                  | [] => obj !! f
                  | [v] => Some v
                  | _ :: _ :: _ => Some (VList values)
                  end.
Proof.
  revert obj. induction mappings as [|[tag0 m0] mappings IH]; intros obj.
  - by intros _ _ ?%elem_of_nil.
  - rewrite for_each_cons. intros (obj1 & Hstep & Hrest)%bind_Ok_inv.
    intros [Hfresh Hnodup]%NoDup_cons [Hhead|Htail]%elem_of_cons Hf.
    + injection Hhead as <- <-. simpl in Hfresh. rewrite Hf in Hfresh.
      rewrite (for_each_map_tag_frame _ _ _ _ _ Hrest Hfresh).
      apply map_tag_spec in Hstep as (results & values & Hfind & Hvalues & Hobj).
      exists results, values. repeat split; [done..|].
      destruct values as [|v [|v' values]]; [by subst|..];
        destruct Hobj as (f' & Hf' & ->); simplify_eq; by rewrite lookup_insert_eq.
    + destruct (IH obj1 Hrest Hnodup Htail Hf)
        as (results & values & Hfind & Hvalues & Hobj).
      exists results, values. repeat split; [done..|].
      rewrite Hobj. destruct values as [|v [|v' values]]; [|done..].
      eapply map_tag_frame; [done|]. intros Hm0. apply Hfresh. simpl.
      rewrite Hm0, <- Hf. unfold target_fields.
      apply list_elem_of_fmap. exists m. split; [done|].
      apply list_elem_of_fmap. by exists (tag, m).
Qed.

Lemma collect_Forall2 {A B} (f : A → result B) (xs : list A) (ys : list B) :
  collect f xs = Ok ys → Forall2 (λ x y, f x = Ok y) xs ys.
Proof.
  revert ys. induction xs as [|x xs IH]; intros ys; simpl.
  - intros [= <-]. constructor.
  - destruct (f x) as [y|] eqn:Hy; [|done]. simpl.
    destruct (collect f xs) as [ys'|]; [|done]. simpl.
    intros [= <-]. constructor; [done|by apply IH].
Qed.

Module MapperProps.

Import DemoXml.

(** C4. A source key with one value sets its field to that value, a key with
    two or more sets it to the list of the values in the order [findall]
    gives the elements, and a key with none leaves the field as it was; in
    the object [from_xml_to_obj] returns, when no two keys share a field,
    a field without value holds the default of the new object. *)
Theorem mapper_scalar_sequence_default :
  (∀ (root : ET.Element) (obj : gmap string value) (tag : string) (m : mapping)
     (f : string) (results : list ET.Element) (values : list value),
     field m = Some f →
     ET.findall root tag = Ok results →
     values_of m results = Ok values →
     Forall2 (λ result v,
                transform (transformation m)
                  (extract_input (default "text"%string (xml_elem_type m)) result)
                = Ok v) results values
     ∧ map_tag root obj (tag, m)
       = Ok match values with
            | [] => obj
            | [v] => <[f := v]> obj
            | _ :: _ :: _ => <[f := VList values]> obj
            end)
  ∧ (∀ (fromstring : string → result ET.Element) (xml : string) (T : obj_type)
       (root : ET.Element) (obj : gmap string value) (tag : string) (m : mapping)
       (f : string),
       fromstring xml = Ok root →
       NoDup (target_fields (MAPPINGS T)) →
       from_xml_to_obj fromstring xml T = Ok obj →
       (tag, m) ∈ MAPPINGS T →
       field m = Some f →
       ∃ (results : list ET.Element) (values : list value),
         ET.findall root tag = Ok results
         ∧ values_of m results = Ok values
         ∧ obj !! f = match values with
                      | [] => new T !! f
                      | [v] => Some v
                      | _ :: _ :: _ => Some (VList values)
                      end).
Proof.
  split.
  - intros root obj tag m f results values Hf Hfind Hvalues. split.
    + by apply collect_Forall2.
    + unfold map_tag. rewrite Hfind. simpl. rewrite Hvalues. simpl.
      unfold field_of. rewrite Hf. by destruct values as [|v [|v' values]].
  - intros fromstring xml T root obj tag m f Hparse Hnodup Hobj Hin Hf.
    unfold from_xml_to_obj in Hobj. rewrite Hparse in Hobj. simpl in Hobj.
    by eapply for_each_map_tag_field.
Qed.

(** C3, amended. A matched element with a [name] attribute gives the
    one-entry mapping from the attribute's value to its text when the
    mapping's element kind is not [xml]; when it is [xml] the value is the
    element itself. [<hard_request name="vcs_build">TRUE</hard_request>]
    gives [{"vcs_build": "TRUE"}]. *)
Theorem attribute_aggregation :
  (∀ (ty : string) (result : ET.Element) (name : string),
     ty ≠ "xml"%string →
     ET.attrib result !! "name"%string = Some name →
     extract_input ty result = VDict [(name, text_input result)])
  ∧ (∀ result : ET.Element, extract_input "xml" result = VElement result)
  ∧ extract_input "text" hard_request_vcs_build
    = VDict [("vcs_build"%string, VStr "TRUE")]
  ∧ (∀ (fromstring : string → result ET.Element) (xml : string),
       fromstring xml = Ok job_list →
       from_xml_to_obj fromstring xml SgeJobType = Ok job_list_record
       ∧ job_list_record !! "hard_request"%string
         = Some (VDict [("vcs_build"%string, VStr "TRUE")])).
Proof.
  repeat split.
  - intros ty result name Hty Hname. unfold extract_input.
    rewrite (proj2 (String.eqb_neq ty "xml") Hty). by rewrite Hname.
  - unfold from_xml_to_obj. rewrite H.
    vm_cast_no_check (eq_refl (Ok job_list_record)).
Qed.

(** C8, amended. For an element kind other than [xml] the value of an element
    without [name] attribute is its text with the surrounding whitespace
    removed, and [None] when the element has no text (with a [name]
    attribute the same text value is wrapped in a one-entry mapping); for
    the kind [xml] the value is the element itself. *)
Theorem text_extraction (ty : string) (result : ET.Element) :
  (ty = "xml"%string → extract_input ty result = VElement result)
  ∧ (ty ≠ "xml"%string →
     (ET.attrib result !! "name"%string = None →
      extract_input ty result = text_input result)
     ∧ (∀ name : string,
          ET.attrib result !! "name"%string = Some name →
          extract_input ty result = VDict [(name, text_input result)]))
  ∧ (∀ s : string,
       ET.text result = Some s →
       text_input result = VStr (Str.strip s)
       ∧ ∃ pre post : string,
           s = pre +:+ Str.strip s +:+ post
           ∧ all_chars Str.isspace pre = true
           ∧ all_chars Str.isspace post = true
           ∧ trimmed (Str.strip s))
  ∧ (ET.text result = None → text_input result = VNone).
Proof.
  split; [by intros ->|]. split; [|split].
  - intros Hty. unfold extract_input.
    rewrite (proj2 (String.eqb_neq ty "xml") Hty).
    split; [by intros ->|]. by intros name ->.
  - intros s Hs. split; [|apply strip_spec].
    unfold text_input. rewrite Hs. by destruct s.
  - unfold text_input. by intros ->.
Qed.

(** C5, amended. [from_xml_to_obj] looks each source key up with [findall]
    from the root: a key that is a tag name finds the children of the root
    with that tag, in document order; the elements with that tag at any
    depth are found by the key [.//tag]. *)
Theorem findall_by_tag_name :
  (∀ (fromstring : string → result ET.Element) (xml : string) (T : obj_type)
     (root : ET.Element),
     fromstring xml = Ok root →
     from_xml_to_obj fromstring xml T
     = for_each (map_tag root) (MAPPINGS T) (new T))
  ∧ (∀ (root : ET.Element) (k : string),
       is_tag_name k = true →
       ET.findall root k = Ok (List.filter (ET.tag_is k) (ET.children root))
       ∧ ET.findall root (".//" +:+ k)
         = Ok (List.filter (ET.tag_is k) (ET.descendants root)))
  ∧ (∀ (root : ET.Element) (obj : gmap string value) (k : string) (m : mapping),
       is_tag_name k = true →
       map_tag root obj (k, m)
       = values ← values_of m (List.filter (ET.tag_is k) (ET.children root)) ;
         match values with
         | [] => Ok obj
         | _ :: _ => f ← field_of m ; Ok (<[f := aggregate values]> obj)
         end).
Proof.
  split; [|split].
  - intros fromstring xml T root Hparse. unfold from_xml_to_obj. by rewrite Hparse.
  - intros root k Hk.
    split; [by apply findall_tag_name | by apply findall_descendant_tag_name].
  - intros root obj k m Hk. unfold map_tag. by rewrite (findall_tag_name root k Hk).
Qed.

(** C9. A table of fewer than two lines gives the empty list of records, and
    no exception. *)
Theorem short_table_gives_no_records (table : string) (T : obj_type)
    (separator : string) :
  (length (Str.splitlines table) < 2)%nat →
  from_table_to_obj_list table T separator = Ok [].
Proof.
  intros Hshort. unfold from_table_to_obj_list.
  by rewrite bool_decide_eq_false_2 by lia.
Qed.

End MapperProps.

(** *** The mapper on the documents of [DemoXml] *)

Import DemoXml.

Lemma mapper_scalar_sequence_default_witness :
  (Forall2 (λ result v, transform None (extract_input "text" result) = Ok v)
     [element "state" ∅ (Some "qw"%string) []] [VStr "qw"]
   ∧ map_tag job_list_four_requests (new SgeJobType)
       ("state"%string, Mapping (Some "state"%string) None None)
     = Ok (<["state"%string := VStr "qw"]> (new SgeJobType)))
  ∧ ∃ (results : list ET.Element) (values : list value),
    ET.findall job_list_four_requests "hard_request" = Ok results
    ∧ values_of (Mapping (Some "hard_request"%string) None None) results = Ok values
    ∧ expected_job !! "hard_request"%string
      = match values with
        | [] => new SgeJobType !! "hard_request"%string
        | [v] => Some v
        | _ :: _ :: _ => Some (VList values)
        end.
Proof.
  split.
  - apply (proj1 MapperProps.mapper_scalar_sequence_default
             job_list_four_requests (new SgeJobType) "state"
             (Mapping (Some "state"%string) None None) "state"
             [element "state" ∅ (Some "qw"%string) []] [VStr "qw"]);
      reflexivity.
  - apply (proj2 MapperProps.mapper_scalar_sequence_default
             (parser job_list_four_requests_xml job_list_four_requests)
             job_list_four_requests_xml
             SgeJobType job_list_four_requests expected_job "hard_request").
    + reflexivity.
    + apply (bool_decide_unpack _). vm_compute. exact I.
    + vm_cast_no_check (eq_refl (Ok expected_job)).
    + do 4 apply list_elem_of_further. apply list_elem_of_here.
    + reflexivity.
Defined.

Lemma attribute_aggregation_witness :
  extract_input "text" hard_request_vcs_build
  = VDict [("vcs_build"%string, text_input hard_request_vcs_build)]
  ∧ from_xml_to_obj (parser job_list_xml job_list) job_list_xml SgeJobType
    = Ok job_list_record
  ∧ job_list_record !! "hard_request"%string
    = Some (VDict [("vcs_build"%string, VStr "TRUE")]).
Proof.
  split.
  - apply (proj1 MapperProps.attribute_aggregation); [discriminate|reflexivity].
  - apply (proj2 (proj2 (proj2 MapperProps.attribute_aggregation))).
    reflexivity.
Defined.

Lemma name_attribute_on_subtree_kind :
  ET.attrib job_12422 !! "name"%string = Some "12422"%string
  ∧ extract_input "xml" job_12422 = VElement job_12422
  ∧ from_xml_to_obj (parser host_xml host) host_xml SgeHostType
    = Ok {[ "jobs"%string := VElement job_12422 ]}
  ∧ VElement job_12422 ≠ VDict [("12422"%string, text_input job_12422)].
Proof.
  split; [reflexivity|]. split; [reflexivity|].
  split; [|discriminate].
  vm_cast_no_check
    (eq_refl (Ok ({[ "jobs"%string := VElement job_12422 ]} : gmap string value))).
Qed.

Lemma text_extraction_witness :
  extract_input "text" (element "slots" ∅ (Some " 1 "%string) [])
  = text_input (element "slots" ∅ (Some " 1 "%string) [])
  ∧ text_input (element "slots" ∅ (Some " 1 "%string) []) = VStr "1"
  ∧ text_input (element "queue_name" ∅ None []) = VNone
  ∧ extract_input "text" hard_request_vcs_build
    = VDict [("vcs_build"%string, text_input hard_request_vcs_build)]
  ∧ extract_input "xml" job_12422 = VElement job_12422.
Proof.
  destruct (MapperProps.text_extraction "text"
              (element "slots" ∅ (Some " 1 "%string) []))
    as (_ & Hkind & Htext & _).
  split; [apply Hkind; [discriminate | reflexivity]|].
  split; [exact (proj1 (Htext " 1 "%string eq_refl))|].
  split.
  { apply (MapperProps.text_extraction "text" (element "queue_name" ∅ None [])).
    reflexivity. }
  split.
  - apply (MapperProps.text_extraction "text" hard_request_vcs_build);
      [discriminate | reflexivity].
  - apply (MapperProps.text_extraction "xml" job_12422). reflexivity.
Defined.

Lemma empty_element_text_is_none :
  ET.text (element "queue_name" ∅ None []) = None
  ∧ extract_input "text" (element "queue_name" ∅ None []) = VNone
  ∧ from_xml_to_obj (parser job_list_xml job_list) job_list_xml SgeJobType
    = Ok job_list_record
  ∧ job_list_record !! "hostname"%string = Some VNone
  ∧ VNone ≠ VStr ""
  ∧ extract_input "text" hard_request_vcs_build
    = VDict [("vcs_build"%string, VStr "TRUE")]
  ∧ VDict [("vcs_build"%string, VStr "TRUE")] ≠ VStr "TRUE".
Proof.
  split; [reflexivity|]. split; [reflexivity|].
  split; [vm_cast_no_check (eq_refl (Ok job_list_record))|].
  split; [reflexivity|]. split; [discriminate|].
  split; [reflexivity | discriminate].
Qed.

Lemma findall_by_tag_name_witness :
  (ET.findall job_list "slots"
   = Ok (List.filter (ET.tag_is "slots") (ET.children job_list))
   ∧ ET.findall job_list (".//" +:+ "slots")
     = Ok (List.filter (ET.tag_is "slots") (ET.descendants job_list)))
  ∧ from_xml_to_obj (parser job_info_xml job_info) job_info_xml SgeJobType
    = for_each (map_tag job_info) (MAPPINGS SgeJobType) (new SgeJobType).
Proof.
  split.
  - apply (proj1 (proj2 MapperProps.findall_by_tag_name)). reflexivity.
  - apply (proj1 MapperProps.findall_by_tag_name). reflexivity.
Defined.

Lemma nested_element_not_found :
  ET.findall job_info "slots" = Ok []
  ∧ List.filter (ET.tag_is "slots") (ET.descendants job_info)
    = [element "slots" ∅ (Some " 1 "%string) []]
  ∧ from_xml_to_obj (parser job_info_xml job_info) job_info_xml SgeJobType
    = Ok (new SgeJobType).
Proof.
  split; [reflexivity|]. split; [reflexivity|].
  vm_cast_no_check (eq_refl (Ok (new SgeJobType))).
Qed.

Lemma short_table_gives_no_records_witness :
  from_table_to_obj_list "Name|Slots" NodeType "|" = Ok [].
Proof.
  apply MapperProps.short_table_gives_no_records. vm_compute. lia.
Defined.

(** *** Checks of the model against the documented examples *)

Example comment_of_lines_76_to_81 :
  from_xml_to_obj (parser job_list_four_requests_xml job_list_four_requests)
    job_list_four_requests_xml SgeJobType
  = Ok expected_job.
Proof. vm_cast_no_check (eq_refl (Ok expected_job)). Qed.

Example table_round_trip :
  from_table_to_obj_list
    ("Name|Slots" +:+ String (ascii_of_nat 10) "node1|4") NodeType "|"
  = Ok [ {[ "name"%string := VStr "node1"; "slots"%string := VInt 4 ]} ].
Proof.
  vm_cast_no_check
    (eq_refl (Ok [ ({[ "name"%string := VStr "node1"; "slots"%string := VInt 4 ]}
                    : gmap string value) ])).
Qed.

Example short_row_keeps_defaults :
  from_table_to_obj_list
    ("Name|Slots" +:+ String (ascii_of_nat 10) "node2") NodeType "|"
  = Ok [ {[ "name"%string := VStr "node2"; "slots"%string := VInt 0 ]} ].
Proof.
  vm_cast_no_check
    (eq_refl (Ok [ ({[ "name"%string := VStr "node2"; "slots"%string := VInt 0 ]}
                    : gmap string value) ])).
Qed.

Example empty_table : from_table_to_obj_list "" NodeType "|" = Ok [].
Proof. reflexivity. Qed.

Example path_steps :
  ET.xpath_tokenizer "queue_info/*//slots" ≫= ET.compile
  = Ok [ET.select_child "queue_info"; ET.select_star;
        ET.select_descendant (Some "slots"%string)].
Proof. reflexivity. Qed.

Example absolute_path_is_refused : ET.findall job_info "/job_info" = Raise SyntaxError.
Proof. reflexivity. Qed.

(** ** More on the capacity planner *)

(** *** More on the greedy pass *)

Lemma collect_raise {A B} (f : A → result B) (e : exn) (x : A) (xs : list A) :
  f x = Raise e → collect f (x :: xs) = Raise e.
Proof. intros Hx. simpl. by rewrite Hx. Qed.

Lemma run_matching_without_slots (hold : string) (nodes : list (string * SgeHost.t))
    (jobs : Z → string → list SgeJob.t) (ip : gmap string Z) (max_size : Z) :
  ip !! "slots"%string = None →
  Sge.run_matching hold nodes jobs ip max_size = Raise TypeError.
Proof.
  intros Hnone. unfold Sge.run_matching, Sge.build_avail_slots, Sge.get_slots.
  rewrite Hnone. by destruct nodes.
Qed.

Lemma matching_no_nodes (ds avail' : list Z) (required : Z) :
  matching [] ds avail' required → avail' = [] ∧ required = total ds.
Proof.
  remember [] as avail eqn:Havail.
  induction 1 as [avail|avail avail1 avail' d ds found required Hplace _ IH].
  - done.
  - subst avail. destruct Hplace as [i a Hi _ _|_]; [done|].
    destruct (IH eq_refl) as [-> ->]. split; [done|].
    change (total (d :: ds)) with (d + total ds). lia.
Qed.

Lemma matching_unplaced (avail avail' : list Z) (ds : list Z) (required : Z) :
  matching avail ds avail' required →
  ∃ unplaced : list Z, unplaced `sublist_of` ds ∧ required = total unplaced.
Proof.
  induction 1 as [avail|avail avail1 avail' d ds found required Hplace _ IH].
  - exists []. by split.
  - destruct IH as (unplaced & Hsub & ->). destruct found.
    + exists unplaced. split; [by apply sublist_cons|lia].
    + exists (d :: unplaced). split; [by apply sublist_skip|].
      change (total (d :: unplaced)) with (d + total unplaced). lia.
Qed.

Lemma total_nonneg (l : list Z) : Forall (λ d, 0 ≤ d) l → 0 ≤ total l.
Proof.
  induction 1 as [|d l Hd _ IH]; [done|].
  change (total (d :: l)) with (d + total l). lia.
Qed.

Lemma total_sublist (l k : list Z) :
  l `sublist_of` k → Forall (λ d, 0 ≤ d) k → total l ≤ total k.
Proof.
  induction 1 as [|d l k _ IH|d l k _ IH]; intros Hk; [done|..];
    apply Forall_cons in Hk as [Hd Hk]; specialize (IH Hk).
  - change (d + total l ≤ d + total k). lia.
  - change (total l ≤ d + total k). lia.
Qed.

Lemma total_app (l k : list Z) : total (l ++ k) = total l + total k.
Proof.
  induction l as [|d l IH]; [done|].
  change (d + total (l ++ k) = d + total l + total k). lia.
Qed.

Lemma matching_app (avail avail1 avail2 : list Z) (ds1 ds2 : list Z) (r1 r2 : Z) :
  matching avail ds1 avail1 r1 →
  matching avail1 ds2 avail2 r2 →
  matching avail (ds1 ++ ds2) avail2 (r1 + r2).
Proof.
  induction 1 as [avail|avail availm avail1 d ds found required Hplace _ IH];
    intros Hrest.
  - by replace (0 + r2) with r2 by lia.
  - replace ((if found then 0 else d) + required + r2)
      with ((if found then 0 else d) + (required + r2)) by lia.
    econstructor; [done|]. by apply IH.
Qed.

Lemma placement_functional (avail avail1 avail2 : list Z) (d : Z) (f1 f2 : bool) :
  placement avail d avail1 f1 → placement avail d avail2 f2 →
  avail1 = avail2 ∧ f1 = f2.
Proof.
  intros [i a Hi Hle Hfirst|Hnone] [j b Hj Hle' Hfirst'|Hnone'].
  - destruct (Nat.lt_total i j) as [Hlt|[->|Hlt]].
    + specialize (Hfirst' _ _ Hlt Hi). lia.
    + by simplify_eq.
    + specialize (Hfirst _ _ Hlt Hj). lia.
  - specialize (Hnone' _ _ Hi). lia.
  - specialize (Hnone _ _ Hj). lia.
  - done.
Qed.

Lemma matching_functional (avail avail1 avail2 : list Z) (ds : list Z) (r1 r2 : Z) :
  matching avail ds avail1 r1 → matching avail ds avail2 r2 →
  avail1 = avail2 ∧ r1 = r2.
Proof.
  intros H1. revert avail2 r2.
  induction H1 as [avail|avail availm avail1 d ds found required Hplace _ IH];
    intros avail2 r2 H2; inversion H2 as [|? availm' ? ? ? found' required' Hplace' Hrest];
    simplify_eq; [done|].
  destruct (placement_functional _ _ _ _ _ _ Hplace Hplace') as [-> ->].
  destruct (IH _ _ Hrest) as [-> ->]. done.
Qed.

Lemma matching_required_nonneg (avail avail' : list Z) (ds : list Z) (required : Z) :
  matching avail ds avail' required → Forall (λ d, 0 ≤ d) ds → 0 ≤ required.
Proof.
  intros (unplaced & Hsub & ->)%matching_unplaced Hds.
  apply total_nonneg. apply Forall_forall. intros d Hd.
  eapply (proj1 (Forall_forall _ _) Hds), elem_of_sublist; done.
Qed.

Lemma matching_oversized (avail avail' : list Z) (ds : list Z) (required bound : Z) :
  matching avail ds avail' required →
  Forall (λ d, 0 ≤ d) ds →
  Forall (λ a, a ≤ bound) avail →
  total (filter (λ d, bound < d) ds) ≤ required.
Proof.
  induction 1 as [avail|avail avail1 avail' d ds found required Hplace Hrest IH];
    intros Hds Havail; [done|].
  apply Forall_cons in Hds as [Hd Hds].
  pose proof (matching_required_nonneg _ _ _ _ Hrest Hds) as Hnonneg.
  assert (Forall (λ a, a ≤ bound) avail1) as Havail1.
  { apply placement_pointwise in Hplace.
    apply Forall_lookup. intros i a' Ha'.
    destruct (Forall2_lookup_r _ _ _ _ _ Hplace Ha') as (a & Ha & Hstep).
    pose proof (Forall_lookup_1 _ _ _ _ Havail Ha). simpl in *.
    destruct Hstep as [->|[_ ->]]; lia. }
  specialize (IH Hds Havail1). rewrite filter_cons.
  destruct (decide (bound < d)) as [Hbig|_]; [|destruct found; lia].
  change (d + total (filter (λ d, bound < d) ds)
          ≤ (if found then 0 else d) + required).
  destruct Hplace as [i a Hi Hle _|_]; [|lia].
  pose proof (Forall_lookup_1 _ _ _ _ Havail Hi). simpl in *. lia.
Qed.

Lemma matching_fits_one_entry (avail avail' : list Z) (ds : list Z) (required : Z) :
  matching avail ds avail' required →
  Forall (λ d, 0 ≤ d) ds →
  (∃ (i : nat) (a : Z), avail !! i = Some a ∧ total ds ≤ a) →
  required = 0.
Proof.
  induction 1 as [avail|avail avail1 avail' d ds found required Hplace Hrest IH];
    intros Hds (k & c & Hk & Hfit); [done|].
  apply Forall_cons in Hds as [Hd Hds].
  pose proof (total_nonneg _ Hds) as Hnonneg.
  change (total (d :: ds)) with (d + total ds) in Hfit.
  destruct Hplace as [i a Hi Hle _|Hnone].
  - rewrite IH; [lia|done|].
    destruct (decide (i = k)) as [->|Hne].
    + exists k, (a - d). split.
      * apply list_lookup_insert_eq. by eapply lookup_lt_Some.
      * simplify_eq. lia.
    + exists k, c. split; [by rewrite list_lookup_insert_ne|lia].
  - specialize (Hnone _ _ Hk). lia.
Qed.

Module PlannerMore.
Section Planner.

Variable SGE_HOLD_STATE : string.
Variable get_compute_nodes_info : list (string * SgeHost.t).
Variable get_pending_jobs_info : Z → string → list SgeJob.t.
Variable instance_properties : gmap string Z.
Variable max_size : Z.

Local Abbreviation build_avail_slots :=
  (Sge.build_avail_slots get_compute_nodes_info instance_properties).
Local Abbreviation _get_required_slots :=
  (Sge._get_required_slots SGE_HOLD_STATE get_compute_nodes_info
     get_pending_jobs_info instance_properties max_size).
Local Abbreviation get_required_nodes :=
  (Sge.get_required_nodes SGE_HOLD_STATE get_compute_nodes_info
     get_pending_jobs_info instance_properties max_size).
Local Abbreviation pending_jobs v :=
  (get_pending_jobs_info (max_size * v) SGE_HOLD_STATE).
Local Abbreviation matched v :=
  (PlannerProps.run_matching_ok SGE_HOLD_STATE get_compute_nodes_info
     get_pending_jobs_info instance_properties max_size v).

(** X1. Without a [slots] entry in the instance properties both functions
    raise [TypeError]; with zero slots per instance
    [_get_required_slots] still returns and [get_required_nodes] raises
    [ZeroDivisionError]. *)
Theorem planner_slots_errors :
  (instance_properties !! "slots"%string = None →
   _get_required_slots = Raise TypeError ∧ get_required_nodes = Raise TypeError)
  ∧ (instance_properties !! "slots"%string = Some 0 →
     (∃ required : Z, _get_required_slots = Ok required)
     ∧ get_required_nodes = Raise ZeroDivisionError).
Proof.
  split.
  - intros Hnone.
    assert (_get_required_slots = Raise TypeError) as Hreq.
    { unfold Sge._get_required_slots.
      by rewrite (run_matching_without_slots _ _ _ _ _ Hnone). }
    split; [done|]. unfold Sge.get_required_nodes. by rewrite Hreq.
  - intros Hzero.
    destruct (matched 0 Hzero) as (avail0 & avail1 & required & _ & _ & Hreq & _).
    split; [by exists required|].
    unfold Sge.get_required_nodes.
    by rewrite Hreq, (PlannerProps.get_slots_ok _ 0 Hzero).
Qed.

(** X3. With no pending job the required slots and nodes are 0; with no
    compute node every pending job is counted: the required slots are the
    sum of the jobs' slots. *)
Theorem planner_empty_queue_or_fleet (v : Z) :
  instance_properties !! "slots"%string = Some v →
  (pending_jobs v = [] →
   _get_required_slots = Ok 0 ∧ (v ≠ 0 → get_required_nodes = Ok 0))
  ∧ (get_compute_nodes_info = [] →
     _get_required_slots = Ok (total (SgeJob.slots <$> pending_jobs v))).
Proof.
  intros Hv.
  destruct (matched v Hv) as (avail0 & avail1 & required & Hbuild & _ & Hreq & Hmatch).
  split.
  - intros Hempty. rewrite Hempty in Hmatch. inversion Hmatch; subst.
    split; [done|]. intros Hnz. unfold Sge.get_required_nodes.
    rewrite Hreq, (PlannerProps.get_slots_ok _ v Hv). simpl.
    by rewrite bool_decide_eq_false_2.
  - intros Hnodes.
    rewrite (PlannerProps.build_avail_slots_ok _ _ v Hv), Hnodes in Hbuild.
    injection Hbuild as <-.
    apply matching_no_nodes in Hmatch as [_ ->]. done.
Qed.

(** X4. The required slots are the sum of the slots of some of the pending
    jobs (a subsequence of the queue); when no job asks for a negative
    number of slots they lie between 0 and the total demand, and with a
    positive number of slots per instance the required nodes are not
    negative. *)
Theorem required_slots_are_unplaced_demand (v : Z) :
  instance_properties !! "slots"%string = Some v →
  ∃ (required : Z) (unplaced : list Z),
    _get_required_slots = Ok required
    ∧ unplaced `sublist_of` (SgeJob.slots <$> pending_jobs v)
    ∧ required = total unplaced
    ∧ (Forall (λ d, 0 ≤ d) (SgeJob.slots <$> pending_jobs v) →
       0 ≤ required ≤ total (SgeJob.slots <$> pending_jobs v)
       ∧ (0 < v → ∃ n : Z, get_required_nodes = Ok n ∧ 0 ≤ n)).
Proof.
  intros Hv.
  destruct (matched v Hv) as (avail0 & avail1 & required & _ & _ & Hreq & Hmatch).
  destruct (matching_unplaced _ _ _ _ Hmatch) as (unplaced & Hsub & Hun).
  exists required, unplaced. split; [done|]. split; [done|]. split; [done|].
  intros Hds. pose proof (matching_required_nonneg _ _ _ _ Hmatch Hds) as Hnonneg.
  split; [split; [done|]|].
  - subst required. by apply total_sublist.
  - intros Hpos. exists (- ((- required) / v)). split.
    + unfold Sge.get_required_nodes.
      rewrite Hreq, (PlannerProps.get_slots_ok _ v Hv). simpl.
      rewrite bool_decide_eq_false_2 by lia. done.
    + assert ((- required) / v ≤ 0); [|lia].
      apply Z.div_le_upper_bound; lia.
Qed.

(** X5. When no job asks for a negative number of slots, a job that asks
    for more slots than any node has free is always counted: the required
    slots are at least the sum of the slots of these jobs. *)
Theorem oversized_jobs_are_required (v bound : Z) :
  instance_properties !! "slots"%string = Some v →
  Forall (λ d, 0 ≤ d) (SgeJob.slots <$> pending_jobs v) →
  Forall (λ node, v - SgeHost.slots_used node - SgeHost.slots_reserved node ≤ bound)
         (get_compute_nodes_info.*2) →
  ∃ required : Z,
    _get_required_slots = Ok required
    ∧ total (filter (λ d, bound < d) (SgeJob.slots <$> pending_jobs v)) ≤ required.
Proof.
  intros Hv Hds Hbound.
  destruct (matched v Hv) as (avail0 & avail1 & required & Hbuild & _ & Hreq & Hmatch).
  exists required. split; [done|].
  eapply matching_oversized; [done..|].
  rewrite (PlannerProps.build_avail_slots_ok _ _ v Hv) in Hbuild.
  injection Hbuild as <-. rewrite merge_sort_Permutation.
  by apply Forall_fmap.
Qed.

(** X15. When no job asks for a negative number of slots and the whole
    queue fits in the free slots of one node, every job finds a node:
    the required slots are 0, and so are the required nodes. *)
Theorem queue_fitting_one_node_requires_nothing (v : Z) (node : SgeHost.t) :
  instance_properties !! "slots"%string = Some v →
  Forall (λ d, 0 ≤ d) (SgeJob.slots <$> pending_jobs v) →
  node ∈ get_compute_nodes_info.*2 →
  total (SgeJob.slots <$> pending_jobs v)
  ≤ v - SgeHost.slots_used node - SgeHost.slots_reserved node →
  _get_required_slots = Ok 0 ∧ (v ≠ 0 → get_required_nodes = Ok 0).
Proof.
  intros Hv Hds Hnode Hfit.
  destruct (matched v Hv) as (avail0 & avail1 & required & Hbuild & _ & Hreq & Hmatch).
  assert (required = 0) as ->.
  { eapply matching_fits_one_entry; [done..|].
    rewrite (PlannerProps.build_avail_slots_ok _ _ v Hv) in Hbuild.
    injection Hbuild as <-.
    assert (v - SgeHost.slots_used node - SgeHost.slots_reserved node
            ∈ merge_sort Z.le
                ((λ node, v - SgeHost.slots_used node - SgeHost.slots_reserved node)
                   <$> get_compute_nodes_info.*2)) as Hin.
    { rewrite merge_sort_Permutation. apply list_elem_of_fmap. by exists node. }
    apply list_elem_of_lookup in Hin as [i Hi].
    eexists i, _. split; [exact Hi | exact Hfit]. }
  split; [done|]. intros Hnz. unfold Sge.get_required_nodes.
  rewrite Hreq, (PlannerProps.get_slots_ok _ v Hv). simpl.
  by rewrite bool_decide_eq_false_2.
Qed.

End Planner.

(** X2. The order in which the node snapshot lists the nodes does not
    matter: for two snapshots with the same nodes in a different order the
    required slots, the required nodes and the busy-node count are the
    same. *)
Theorem planner_ignores_node_order (SGE_BUSY_STATES : list string)
    (SGE_HOLD_STATE SGE_ORPHANED_STATE : string)
    (nodes nodes' : list (string * SgeHost.t))
    (get_pending_jobs_info : Z → string → list SgeJob.t)
    (instance_properties : gmap string Z) (max_size : Z) :
  nodes ≡ₚ nodes' →
  Sge._get_required_slots SGE_HOLD_STATE nodes get_pending_jobs_info
    instance_properties max_size
  = Sge._get_required_slots SGE_HOLD_STATE nodes' get_pending_jobs_info
      instance_properties max_size
  ∧ Sge.get_required_nodes SGE_HOLD_STATE nodes get_pending_jobs_info
      instance_properties max_size
    = Sge.get_required_nodes SGE_HOLD_STATE nodes' get_pending_jobs_info
        instance_properties max_size
  ∧ Sge.get_busy_nodes SGE_BUSY_STATES SGE_ORPHANED_STATE nodes
    = Sge.get_busy_nodes SGE_BUSY_STATES SGE_ORPHANED_STATE nodes'.
Proof.
  intros Hperm.
  assert (Sge.run_matching SGE_HOLD_STATE nodes get_pending_jobs_info
            instance_properties max_size
          = Sge.run_matching SGE_HOLD_STATE nodes' get_pending_jobs_info
              instance_properties max_size) as Hrun.
  { destruct (instance_properties !! "slots"%string) as [v|] eqn:Hv.
    - unfold Sge.run_matching.
      rewrite !(PlannerProps.build_avail_slots_ok _ _ v Hv).
      do 2 f_equal. apply (Sorted_unique Z.le).
      + apply Sorted_merge_sort. intros x y. lia.
      + apply Sorted_merge_sort. intros x y. lia.
      + rewrite !merge_sort_Permutation. by rewrite Hperm.
    - by rewrite !run_matching_without_slots. }
  assert (Sge._get_required_slots SGE_HOLD_STATE nodes get_pending_jobs_info
            instance_properties max_size
          = Sge._get_required_slots SGE_HOLD_STATE nodes' get_pending_jobs_info
              instance_properties max_size) as Hreq.
  { unfold Sge._get_required_slots. by rewrite Hrun. }
  split; [done|]. split.
  - unfold Sge.get_required_nodes. by rewrite Hreq.
  - unfold Sge.get_busy_nodes. rewrite !count_loop. by rewrite Hperm.
Qed.

(** X6. Jobs added at the end of the queue that ask for no negative number
    of slots never lower the required slots: they add the demand of those
    among them that find no node. *)
Theorem longer_queue_requires_no_less (SGE_HOLD_STATE : string)
    (get_compute_nodes_info : list (string * SgeHost.t))
    (get_pending_jobs_info longer_queue : Z → string → list SgeJob.t)
    (instance_properties : gmap string Z) (max_size v : Z)
    (more : list SgeJob.t) :
  instance_properties !! "slots"%string = Some v →
  longer_queue (max_size * v) SGE_HOLD_STATE
  = get_pending_jobs_info (max_size * v) SGE_HOLD_STATE ++ more →
  Forall (λ job, 0 ≤ SgeJob.slots job) more →
  ∃ required required' : Z,
    Sge._get_required_slots SGE_HOLD_STATE get_compute_nodes_info
      get_pending_jobs_info instance_properties max_size = Ok required
    ∧ Sge._get_required_slots SGE_HOLD_STATE get_compute_nodes_info
        longer_queue instance_properties max_size = Ok required'
    ∧ required ≤ required' ≤ required + total (SgeJob.slots <$> more).
Proof.
  intros Hv Hlonger Hmore.
  destruct (PlannerProps.run_matching_ok SGE_HOLD_STATE get_compute_nodes_info
              get_pending_jobs_info instance_properties max_size v Hv)
    as (avail0 & avail1 & required & Hbuild & _ & Hreq & Hmatch).
  destruct (PlannerProps.run_matching_ok SGE_HOLD_STATE get_compute_nodes_info
              longer_queue instance_properties max_size v Hv)
    as (avail0' & avail1' & required' & Hbuild' & _ & Hreq' & Hmatch').
  rewrite Hbuild in Hbuild'. injection Hbuild' as <-.
  rewrite Hlonger, fmap_app in Hmatch'.
  destruct (for_each_matching more avail1 0) as (avail2 & extra & _ & Hextra).
  destruct (matching_functional _ _ _ _ _ _ Hmatch'
              (matching_app _ _ _ _ _ _ _ Hmatch Hextra)) as [_ ->].
  exists required, (required + extra). split; [done|]. split; [done|].
  assert (Forall (λ d, 0 ≤ d) (SgeJob.slots <$> more)) as Hds.
  { by apply Forall_fmap. }
  pose proof (matching_required_nonneg _ _ _ _ Hextra Hds).
  destruct (matching_unplaced _ _ _ _ Hextra) as (unplaced & Hsub & ->).
  pose proof (total_sublist _ _ Hsub Hds). lia.
Qed.

(** X7. The busy-node count lies between 0 and the number of nodes, it is
    the sum of the counts of the parts of a snapshot split in two, and a
    node in the orphaned state never adds to it. *)
Theorem busy_nodes_bounds (SGE_BUSY_STATES : list string)
    (SGE_ORPHANED_STATE : string) :
  (∀ nodes : list (string * SgeHost.t),
     0 ≤ Sge.get_busy_nodes SGE_BUSY_STATES SGE_ORPHANED_STATE nodes
       ≤ Z.of_nat (length nodes))
  ∧ (∀ nodes nodes' : list (string * SgeHost.t),
       Sge.get_busy_nodes SGE_BUSY_STATES SGE_ORPHANED_STATE (nodes ++ nodes')
       = Sge.get_busy_nodes SGE_BUSY_STATES SGE_ORPHANED_STATE nodes
         + Sge.get_busy_nodes SGE_BUSY_STATES SGE_ORPHANED_STATE nodes')
  ∧ (∀ (nodes : list (string * SgeHost.t)) (name : string) (node : SgeHost.t),
       SGE_ORPHANED_STATE ∈ SgeHost.state node →
       Sge.get_busy_nodes SGE_BUSY_STATES SGE_ORPHANED_STATE ((name, node) :: nodes)
       = Sge.get_busy_nodes SGE_BUSY_STATES SGE_ORPHANED_STATE nodes).
Proof.
  unfold Sge.get_busy_nodes. repeat split.
  - rewrite count_loop. lia.
  - rewrite count_loop. pose proof (length_filter
      (counts_as_busy SGE_BUSY_STATES SGE_ORPHANED_STATE) (nodes.*2)) as Hle.
    rewrite length_fmap in Hle. lia.
  - intros nodes nodes'. rewrite !count_loop, fmap_app, filter_app, length_app. lia.
  - intros nodes name node Horphan. rewrite !count_loop, fmap_cons, filter_cons.
    rewrite decide_False; [done|]. by intros [_ ?].
Qed.

End PlannerMore.

Lemma planner_slots_errors_witness :
  (Sge._get_required_slots "h" Demo.nodes Demo.pending_jobs ∅ 10 = Raise TypeError
   ∧ Sge.get_required_nodes "h" Demo.nodes Demo.pending_jobs ∅ 10 = Raise TypeError)
  ∧ (∃ required : Z,
       Sge._get_required_slots "h" Demo.nodes Demo.pending_jobs
         {["slots"%string := 0]} 10 = Ok required)
  ∧ Sge.get_required_nodes "h" Demo.nodes Demo.pending_jobs
      {["slots"%string := 0]} 10 = Raise ZeroDivisionError.
Proof.
  split.
  - apply (proj1 (PlannerMore.planner_slots_errors
                    "h" Demo.nodes Demo.pending_jobs ∅ 10)).
    reflexivity.
  - apply (proj2 (PlannerMore.planner_slots_errors
                    "h" Demo.nodes Demo.pending_jobs {["slots"%string := 0]} 10)).
    reflexivity.
Defined.

Lemma planner_ignores_node_order_witness :
  Sge._get_required_slots "h" Demo.nodes Demo.pending_jobs Demo.instance_properties 10
  = Sge._get_required_slots "h" (reverse Demo.nodes) Demo.pending_jobs
      Demo.instance_properties 10
  ∧ Sge.get_required_nodes "h" Demo.nodes Demo.pending_jobs Demo.instance_properties 10
    = Sge.get_required_nodes "h" (reverse Demo.nodes) Demo.pending_jobs
        Demo.instance_properties 10
  ∧ Sge.get_busy_nodes ["u"%string] "o" Demo.nodes
    = Sge.get_busy_nodes ["u"%string] "o" (reverse Demo.nodes).
Proof.
  apply PlannerMore.planner_ignores_node_order.
  symmetry. apply reverse_Permutation.
Defined.

Lemma planner_empty_queue_or_fleet_witness :
  (Sge._get_required_slots "h" Demo.nodes (λ _ _, []) Demo.instance_properties 10 = Ok 0
   ∧ Sge.get_required_nodes "h" Demo.nodes (λ _ _, []) Demo.instance_properties 10
     = Ok 0)
  ∧ Sge._get_required_slots "h" [] Demo.pending_jobs Demo.instance_properties 10
    = Ok 9.
Proof.
  split.
  - destruct (proj1 (PlannerMore.planner_empty_queue_or_fleet
                       "h" Demo.nodes (λ _ _, []) Demo.instance_properties 10 4
                       eq_refl) eq_refl) as [Hslots Hnodes].
    split; [exact Hslots|]. apply Hnodes. lia.
  - apply (proj2 (PlannerMore.planner_empty_queue_or_fleet
                    "h" [] Demo.pending_jobs Demo.instance_properties 10 4
                    eq_refl)).
    reflexivity.
Defined.

Lemma required_slots_are_unplaced_demand_witness :
  ∃ required : Z,
    Sge._get_required_slots "h" Demo.nodes Demo.pending_jobs
      Demo.instance_properties 10 = Ok required
    ∧ 0 ≤ required ≤ 9
    ∧ ∃ n : Z,
        Sge.get_required_nodes "h" Demo.nodes Demo.pending_jobs
          Demo.instance_properties 10 = Ok n
        ∧ 0 ≤ n.
Proof.
  destruct (PlannerMore.required_slots_are_unplaced_demand
              "h" Demo.nodes Demo.pending_jobs Demo.instance_properties 10 4
              eq_refl)
    as (required & unplaced & Hrequired & _ & _ & Hbounds).
  assert (Forall (λ d, 0 ≤ d) (SgeJob.slots <$> Demo.pending_jobs (10 * 4) "h"))
    as Hdemands.
  { change (Forall (λ d, 0 ≤ d) [1; 3; 5]). repeat constructor; lia. }
  destruct (Hbounds Hdemands) as [Hrange Hnodes].
  exists required. split; [exact Hrequired|]. split; [exact Hrange|].
  apply Hnodes. lia.
Defined.

Lemma oversized_jobs_are_required_witness :
  ∃ required : Z,
    Sge._get_required_slots "h" Demo.nodes Demo.pending_jobs
      Demo.instance_properties 10 = Ok required
    ∧ 5 ≤ required.
Proof.
  apply (PlannerMore.oversized_jobs_are_required
           "h" Demo.nodes Demo.pending_jobs Demo.instance_properties 10 4 4).
  - reflexivity.
  - change (Forall (λ d, 0 ≤ d) [1; 3; 5]). repeat constructor; lia.
  - repeat constructor; simpl; lia.
Defined.

Lemma longer_queue_requires_no_less_witness :
  ∃ required required' : Z,
    Sge._get_required_slots "h" Demo.nodes Demo.pending_jobs
      Demo.instance_properties 10 = Ok required
    ∧ Sge._get_required_slots "h" Demo.nodes
        (λ m s, Demo.pending_jobs m s ++ [SgeJob.Build "104" 2 "qw"])
        Demo.instance_properties 10 = Ok required'
    ∧ required ≤ required' ≤ required + 2.
Proof.
  apply (PlannerMore.longer_queue_requires_no_less
           "h" Demo.nodes Demo.pending_jobs
           (λ m s, Demo.pending_jobs m s ++ [SgeJob.Build "104" 2 "qw"])
           Demo.instance_properties 10 4 [SgeJob.Build "104" 2 "qw"]).
  - reflexivity.
  - reflexivity.
  - repeat constructor. simpl. lia.
Defined.

Lemma busy_nodes_bounds_witness :
  Sge.get_busy_nodes ["u"%string] "o"
    (("node-d"%string, SgeHost.Build "node-d" {["o"%string]} 2 0) :: Demo.nodes)
  = Sge.get_busy_nodes ["u"%string] "o" Demo.nodes.
Proof.
  apply (proj2 (proj2 (PlannerMore.busy_nodes_bounds ["u"%string] "o"))).
  cbn [SgeHost.state]. apply elem_of_singleton_2. reflexivity.
Defined.

Lemma queue_fitting_one_node_requires_nothing_witness :
  Sge._get_required_slots "h" Demo.nodes
    (λ _ _, [SgeJob.Build "101" 1 "qw"; SgeJob.Build "102" 3 "qw"])
    Demo.instance_properties 10 = Ok 0
  ∧ Sge.get_required_nodes "h" Demo.nodes
      (λ _ _, [SgeJob.Build "101" 1 "qw"; SgeJob.Build "102" 3 "qw"])
      Demo.instance_properties 10 = Ok 0.
Proof.
  destruct (PlannerMore.queue_fitting_one_node_requires_nothing
              "h" Demo.nodes
              (λ _ _, [SgeJob.Build "101" 1 "qw"; SgeJob.Build "102" 3 "qw"])
              Demo.instance_properties 10 4 (SgeHost.Build "node-a" ∅ 0 0))
    as [Hslots Hnodes].
  - reflexivity.
  - repeat constructor; simpl; lia.
  - apply list_elem_of_here.
  - simpl. lia.
  - split; [exact Hslots|]. apply Hnodes. lia.
Defined.

(** ** More on the declarative mapper *)

(** *** More on the loops of the mapper *)

Lemma for_each_app {A S} (body : S → A → result S) (xs ys : list A) (acc : S) :
  for_each body (xs ++ ys) acc = bind (for_each body xs acc) (for_each body ys).
Proof.
  revert acc. induction xs as [|x xs IH]; intros acc; [done|].
  rewrite <- app_comm_cons, !for_each_cons.
  destruct (body acc x) as [acc'|e]; simpl; [apply IH | done].
Qed.


Lemma collect_ok {A B} (f : A → result B) (xs : list A) :
  (∀ x, x ∈ xs → ∃ y, f x = Ok y) → ∃ ys, collect f xs = Ok ys.
Proof.
  induction xs as [|x xs IH]; intros Hxs; [by exists []|].
  destruct (Hxs x) as [y Hy]; [apply list_elem_of_here|].
  destruct IH as [ys Hys]; [intros x' Hx'; by apply Hxs, list_elem_of_further|].
  exists (y :: ys). simpl. by rewrite Hy, Hys.
Qed.

Lemma map_tag_dom (root : ET.Element) (obj obj' : gmap string value)
    (tag : string) (m : mapping) (f : string) :
  map_tag root obj (tag, m) = Ok obj' →
  is_Some (obj' !! f) → is_Some (obj !! f) ∨ field m = Some f.
Proof.
  intros (results & values & _ & _ & Hobj)%map_tag_spec Hf.
  destruct values as [|v values]; [subst; by left|].
  destruct Hobj as (f' & Hf' & ->).
  destruct (decide (f' = f)) as [->|Hne]; [by right|].
  left. by rewrite lookup_insert_ne in Hf.
Qed.

Lemma for_each_map_tag_dom (root : ET.Element) (mappings : list (string * mapping))
    (obj obj' : gmap string value) (f : string) :
  for_each (map_tag root) mappings obj = Ok obj' →
  is_Some (obj' !! f) → is_Some (obj !! f) ∨ Some f ∈ target_fields mappings.
Proof.
  revert obj. induction mappings as [|[tag m] mappings IH]; intros obj.
  - intros [= <-]. by left.
  - rewrite for_each_cons. intros (obj1 & Hstep & Hrest)%bind_Ok_inv Hf.
    destruct (IH _ Hrest Hf) as [Hobj1|Hin].
    + destruct (map_tag_dom _ _ _ _ _ _ Hstep Hobj1) as [?|Hm]; [by left|].
      right. unfold target_fields. simpl. rewrite Hm. apply list_elem_of_here.
    + right. by apply list_elem_of_further.
Qed.



Module MapperMore.

(** X8. In the object [from_xml_to_obj] returns, an attribute that is the
    field of no mapping entry holds the default of the new object, and
    every attribute is a default attribute or the field of an entry. *)
Theorem xml_mapper_touches_only_mapped_fields
    (fromstring : string → result ET.Element) (xml : string) (T : obj_type)
    (obj : gmap string value) :
  from_xml_to_obj fromstring xml T = Ok obj →
  (∀ f : string, Some f ∉ target_fields (MAPPINGS T) → obj !! f = new T !! f)
  ∧ (∀ f : string,
       is_Some (obj !! f) →
       is_Some (new T !! f) ∨ Some f ∈ target_fields (MAPPINGS T)).
Proof.
  unfold from_xml_to_obj. intros (root & _ & Hloop)%bind_Ok_inv. split.
  - intros f Hf. by eapply for_each_map_tag_frame.
  - intros f Hf. by eapply for_each_map_tag_dom.
Qed.

(** X9. When several mapping entries assign to the same field, the last of
    them that finds elements decides: an entry after which no entry assigns
    to its field sets the field from its own values, and leaves what the
    entries before it set when it finds none. *)
Theorem last_mapping_entry_wins
    (fromstring : string → result ET.Element) (xml : string) (T : obj_type)
    (root : ET.Element) (obj : gmap string value)
    (before after : list (string * mapping)) (tag : string) (m : mapping)
    (f : string) :
  fromstring xml = Ok root →
  from_xml_to_obj fromstring xml T = Ok obj →
  MAPPINGS T = before ++ (tag, m) :: after →
  field m = Some f →
  Some f ∉ target_fields after →
  ∃ (earlier : gmap string value) (results : list ET.Element) (values : list value),
    for_each (map_tag root) before (new T) = Ok earlier
    ∧ ET.findall root tag = Ok results
    ∧ values_of m results = Ok values
    ∧ obj !! f = match values with
                 | [] => earlier !! f
                 | [v] => Some v
                 | _ :: _ :: _ => Some (VList values)
                 end.
Proof.
  intros Hparse Hobj Hmappings Hf Hafter.
  unfold from_xml_to_obj in Hobj. rewrite Hparse in Hobj.
  apply bind_Ok_inv in Hobj as (root' & [= <-] & Hobj).
  rewrite Hmappings, for_each_app in Hobj.
  apply bind_Ok_inv in Hobj as (earlier & Hbefore & Hobj).
  rewrite for_each_cons in Hobj.
  apply bind_Ok_inv in Hobj as (obj1 & Hstep & Hrest).
  apply map_tag_spec in Hstep as (results & values & Hfind & Hvalues & Hobj1).
  exists earlier, results, values. repeat split; [done..|].
  rewrite (for_each_map_tag_frame _ _ _ _ _ Hrest Hafter).
  destruct values as [|v [|v' values]]; [by subst|..];
    destruct Hobj1 as (f' & Hf' & ->); simplify_eq; by rewrite lookup_insert_eq.
Qed.


(** X11. A table of at least two lines mapped with the empty separator
    raises [ValueError]. *)
Theorem table_empty_separator (table : string) (T : obj_type) :
  (1 < length (Str.splitlines table))%nat →
  from_table_to_obj_list table T "" = Raise ValueError.
Proof.
  intros Hlines. unfold from_table_to_obj_list.
  rewrite bool_decide_eq_true_2 by done.
  destruct (Str.splitlines table) as [|header rows]; [simpl in Hlines; lia|].
  reflexivity.
Qed.


(** X13. With a non-empty separator, and mapping entries that all have a
    field and a transformation (if any) that accepts every string,
    [from_table_to_obj_list] raises no exception. *)
Theorem table_mapper_does_not_raise (table : string) (T : obj_type)
    (separator : string) :
  separator ≠ ""%string →
  (∀ (column : string) (m : mapping),
     (column, m) ∈ MAPPINGS T →
     is_Some (field m)
     ∧ ∀ item : string, ∃ v : value, transform (transformation m) (VStr item) = Ok v) →
  ∃ records : list (gmap string value),
    from_table_to_obj_list table T separator = Ok records.
Proof.
  intros Hsep Hmappings. unfold from_table_to_obj_list.
  case_bool_decide as Hlines; [|by exists []].
  destruct (Str.splitlines table) as [|header rows]; [simpl in Hlines; lia|].
  assert (∀ s, Str.split s separator = Ok (Str.split_from separator s O "")) as Hsplit.
  { intros s. unfold Str.split. destruct separator; [congruence|done]. }
  rewrite Hsplit. simpl. apply collect_ok. intros row _. rewrite Hsplit. simpl.
  generalize (zip (Str.split_from separator row 0 "") (Str.split_from separator header 0 "")).
  intros pairs. generalize (new T).
  induction pairs as [|[item column] pairs IH]; intros obj; [by exists obj|].
  rewrite for_each_cons.
  assert (∃ obj1, map_item (MAPPINGS T) obj (item, column) = Ok obj1) as [obj1 ->];
    [|apply IH].
  unfold map_item. destruct (get (MAPPINGS T) column) as [m|] eqn:Hget; [|by eexists].
  destruct (mapping_truthy m); [|by eexists].
  assert (∃ k, (k, m) ∈ MAPPINGS T) as [k Hin].
  { clear -Hget. induction (MAPPINGS T) as [|[k m'] ms IH]; [done|].
    simpl in Hget. destruct (String.eqb k column).
    - injection Hget as ->. exists k. apply list_elem_of_here.
    - destruct (IH Hget) as [k' ?]. exists k'. by apply list_elem_of_further. }
  destruct (Hmappings k m Hin) as [[f Hf] Htotal].
  destruct (Htotal item) as [v ->]. simpl.
  unfold field_of. rewrite Hf. by eexists.
Qed.

End MapperMore.

Import DemoMore.

Lemma xml_mapper_touches_only_mapped_fields_witness :
  (∀ f : string,
     Some f ∉ target_fields (MAPPINGS JobSummaryType) →
     job_summary !! f = new JobSummaryType !! f)
  ∧ (∀ f : string,
       is_Some (job_summary !! f) →
       is_Some (new JobSummaryType !! f)
       ∨ Some f ∈ target_fields (MAPPINGS JobSummaryType)).
Proof.
  apply (MapperMore.xml_mapper_touches_only_mapped_fields
           (parser job_list_xml job_list) job_list_xml).
  vm_cast_no_check (eq_refl (Ok job_summary)).
Defined.

Lemma last_mapping_entry_wins_witness :
  ∃ (earlier : gmap string value) (results : list ET.Element) (values : list value),
    for_each (map_tag job_list)
      [ ("JB_job_number"%string, Mapping (Some "number"%string) None None);
        ("JB_name"%string, Mapping (Some "label"%string) None None) ]
      (new JobSummaryType) = Ok earlier
    ∧ ET.findall job_list "state" = Ok results
    ∧ values_of (Mapping (Some "label"%string) None None) results = Ok values
    ∧ job_summary !! "label"%string
      = match values with
        | [] => earlier !! "label"%string
        | [v] => Some v
        | _ :: _ :: _ => Some (VList values)
        end.
Proof.
  apply (MapperMore.last_mapping_entry_wins
           (parser job_list_xml job_list) job_list_xml JobSummaryType job_list
           job_summary
           [ ("JB_job_number"%string, Mapping (Some "number"%string) None None);
             ("JB_name"%string, Mapping (Some "label"%string) None None) ]
           [ ("slots"%string, Mapping (Some "slots"%string) (Some int) None) ]
           "state" (Mapping (Some "label"%string) None None) "label").
  - reflexivity.
  - vm_cast_no_check (eq_refl (Ok job_summary)).
  - reflexivity.
  - reflexivity.
  - apply (bool_decide_unpack _). vm_compute. exact I.
Defined.


Lemma table_empty_separator_witness :
  from_table_to_obj_list node_table NodeType "" = Raise ValueError.
Proof.
  apply MapperMore.table_empty_separator. vm_compute. lia.
Defined.


Lemma table_mapper_does_not_raise_witness :
  ∃ records : list (gmap string value),
    from_table_to_obj_list node_table QueueType "|" = Ok records.
Proof.
  apply MapperMore.table_mapper_does_not_raise.
  - discriminate.
  - intros column m Hin.
    repeat (apply elem_of_cons in Hin as [[= -> ->]|Hin]);
      [..|by apply elem_of_nil in Hin];
      (split; [by eexists | intros item; by eexists]).
Defined.

(** *** Tables rendered from cells *)

Lemma all_chars_append (p : ascii → bool) (s1 s2 : string) :
  all_chars p (s1 +:+ s2) = all_chars p s1 && all_chars p s2.
Proof.
  induction s1 as [|x s1 IH]; [done|].
  rewrite append_cons. simpl. rewrite IH. by rewrite andb_assoc.
Qed.

Lemma all_chars_impl (p q : ascii → bool) (s : string) :
  (∀ x, p x = true → q x = true) → all_chars p s = true → all_chars q s = true.
Proof.
  intros Hpq. induction s as [|x s IH]; [done|]. simpl.
  intros [Hx Hs]%andb_true_iff. by rewrite (Hpq x Hx), IH.
Qed.

Lemma all_chars_join (p : ascii → bool) (sep : string) (cells : list string) :
  all_chars p sep = true →
  Forall (λ cell, all_chars p cell = true) cells →
  all_chars p (join sep cells) = true.
Proof.
  intros Hsep. induction 1 as [|cell cells Hcell Hcells IH]; [done|].
  destruct cells as [|cell' cells]; [done|].
  change (all_chars p (cell +:+ sep +:+ join sep (cell' :: cells)) = true).
  by rewrite !all_chars_append, Hcell, Hsep, IH.
Qed.

Lemma truthy_append_r (s1 s2 : string) :
  Str.truthy s2 = true → Str.truthy (s1 +:+ s2) = true.
Proof. destruct s1; [done|]. by rewrite append_cons. Qed.

Lemma join_last_truthy (sep : string) (lines : list string) :
  last lines ≠ Some ""%string → lines ≠ [] → Str.truthy (join sep lines) = true.
Proof.
  induction lines as [|l lines IH]; [done|]. intros Hlast _.
  destruct lines as [|l' lines].
  - simpl in *. destruct l; [congruence|done].
  - change (Str.truthy (l +:+ sep +:+ join sep (l' :: lines)) = true).
    do 2 apply truthy_append_r. by apply IH.
Qed.

Lemma splitlines_from_line (l rest cur : string) :
  all_chars (λ x, negb (Str.is_linebreak x)) l = true →
  Str.splitlines_from (l +:+ rest) cur = Str.splitlines_from rest (cur +:+ l).
Proof.
  revert cur. induction l as [|x l IH]; intros cur Hl.
  - by rewrite append_nil_l, append_nil_r.
  - simpl in Hl. apply andb_true_iff in Hl as [Hx Hl]. apply negb_true_iff in Hx.
    rewrite append_cons. cbn [Str.splitlines_from]. rewrite Hx, (IH _ Hl).
    by rewrite append_assoc, append_cons, append_nil_l.
Qed.

Lemma splitlines_from_newline (rest cur : string) :
  Str.truthy rest = true →
  Str.splitlines_from (newline +:+ rest) cur = cur :: Str.splitlines_from rest "".
Proof. by destruct rest. Qed.

Lemma splitlines_join (lines : list string) :
  lines ≠ [] →
  Forall (λ l, all_chars (λ x, negb (Str.is_linebreak x)) l = true) lines →
  last lines ≠ Some ""%string →
  Str.splitlines (join newline lines) = lines.
Proof.
  unfold Str.splitlines.
  induction lines as [|l lines IH]; [done|]. intros _ Hlines Hlast.
  apply Forall_cons in Hlines as [Hl Hlines].
  destruct lines as [|l' lines].
  - simpl join. rewrite <- (append_nil_r l) at 1.
    rewrite (splitlines_from_line _ _ _ Hl), append_nil_l. simpl.
    simpl in Hlast. destruct l; [congruence|done].
  - change (join newline (l :: l' :: lines))
      with (l +:+ newline +:+ join newline (l' :: lines)).
    rewrite (splitlines_from_line _ _ _ Hl), append_nil_l.
    assert (Str.truthy (join newline (l' :: lines)) = true) as Hrest.
    { by apply join_last_truthy. }
    rewrite (splitlines_from_newline _ _ Hrest). f_equal. by apply IH.
Qed.

Lemma split_from_cell (c : ascii) (cell rest cur : string) :
  all_chars (λ x, negb (Ascii.eqb c x)) cell = true →
  Str.split_from (String c "") (cell +:+ rest) O cur
  = Str.split_from (String c "") rest O (cur +:+ cell).
Proof.
  revert cur. induction cell as [|x cell IH]; intros cur Hcell.
  - by rewrite append_nil_l, append_nil_r.
  - simpl in Hcell. apply andb_true_iff in Hcell as [Hx Hcell].
    apply negb_true_iff in Hx.
    rewrite append_cons. cbn [Str.split_from Str.startswith]. rewrite Hx.
    cbn [andb]. rewrite (IH _ Hcell).
    by rewrite append_assoc, append_cons, append_nil_l.
Qed.

Lemma split_from_join (c : ascii) (cells : list string) :
  cells ≠ [] →
  Forall (λ cell, all_chars (λ x, negb (Ascii.eqb c x)) cell = true) cells →
  Str.split_from (String c "") (join (String c "") cells) O "" = cells.
Proof.
  induction cells as [|cell cells IH]; [done|]. intros _ Hcells.
  apply Forall_cons in Hcells as [Hcell Hcells].
  destruct cells as [|cell' cells].
  - simpl join. rewrite <- (append_nil_r cell) at 1.
    by rewrite (split_from_cell _ _ _ _ Hcell), append_nil_l.
  - change (join (String c "") (cell :: cell' :: cells))
      with (cell +:+ String c "" +:+ join (String c "") (cell' :: cells)).
    rewrite (split_from_cell _ _ _ _ Hcell), append_nil_l.
    rewrite append_cons, append_nil_l.
    cbn [Str.split_from Str.startswith]. rewrite Ascii.eqb_refl. cbn [andb].
    f_equal. by apply IH.
Qed.

Lemma collect_fmap_ext {A B C} (f : B → result C) (g : A → B) (h : A → result C)
    (xs : list A) :
  Forall (λ x, f (g x) = h x) xs → collect f (g <$> xs) = collect h xs.
Proof.
  induction 1 as [|x xs Hx _ IH]; [done|].
  rewrite fmap_cons. simpl. by rewrite Hx, IH.
Qed.

Lemma cell_ok_no_separator (c : ascii) (cells : list string) :
  Forall (λ cell, cell_ok c cell = true) cells →
  Forall (λ cell, all_chars (λ x, negb (Ascii.eqb c x)) cell = true) cells.
Proof.
  intros Hcells. eapply Forall_impl; [exact Hcells|].
  intros cell. apply all_chars_impl.
  by intros x [? _]%andb_true_iff.
Qed.

Lemma line_has_no_linebreak (c : ascii) (cells : list string) :
  Str.is_linebreak c = false →
  Forall (λ cell, cell_ok c cell = true) cells →
  all_chars (λ x, negb (Str.is_linebreak x)) (join (String c "") cells) = true.
Proof.
  intros Hc Hcells. apply all_chars_join; [simpl; by rewrite Hc|].
  eapply Forall_impl; [exact Hcells|].
  intros cell. apply all_chars_impl.
  by intros x [_ ?]%andb_true_iff.
Qed.

Module TableMore.

(** X14. A table rendered from cells comes back cell by cell: when the
    separator is one character that is no line boundary, no cell contains
    it or a line boundary, every line has a cell and the text does not end
    with an empty line, [from_table_to_obj_list] maps each row's cells to
    the header's columns by position (the cells or columns in excess of the
    shorter are left out). *)
Theorem rendered_table_maps_by_position (c : ascii) (header : list string)
    (rows : list (list string)) (T : obj_type) :
  Str.is_linebreak c = false →
  Forall (λ cells, cells ≠ [] ∧ Forall (λ cell, cell_ok c cell = true) cells)
         (header :: rows) →
  last (join (String c "") <$> header :: rows) ≠ Some ""%string →
  from_table_to_obj_list (render_table c header rows) T (String c "")
  = collect (λ cells, for_each (map_item (MAPPINGS T)) (zip cells header) (new T))
            rows.
Proof.
  intros Hc Hcells Hlast. unfold from_table_to_obj_list, render_table.
  rewrite splitlines_join; [|done| |done].
  - apply Forall_cons in Hcells as [[Hheader Hheader_cells] Hrows].
    rewrite fmap_cons. case_bool_decide as Hlines.
    + unfold Str.split. cbn [Str.truthy].
      rewrite (split_from_join c header Hheader (cell_ok_no_separator _ _ Hheader_cells)).
      change (collect
                (λ row, items ← Ok (Str.split_from (String c "") row 0 "") ;
                        for_each (map_item (MAPPINGS T)) (zip items header) (new T))
                (join (String c "") <$> rows)
              = collect
                  (λ cells, for_each (map_item (MAPPINGS T)) (zip cells header) (new T))
                  rows).
      apply collect_fmap_ext.
      eapply Forall_impl; [exact Hrows|]. intros cells [Hne Hok].
      by rewrite (split_from_join c cells Hne (cell_ok_no_separator _ _ Hok)).
    + destruct rows; [done|]. simpl in Hlines. lia.
  - apply Forall_fmap. eapply Forall_impl; [exact Hcells|].
    intros cells [_ Hok]. by apply line_has_no_linebreak.
Qed.

End TableMore.

Lemma rendered_table_maps_by_position_witness :
  from_table_to_obj_list
    (render_table "|" ["Name"; "Slots"]%string [["node1"; "4"]; ["node2"]]%string)
    NodeType "|"
  = collect (λ cells, for_each (map_item (MAPPINGS NodeType))
                        (zip cells ["Name"; "Slots"]%string) (new NodeType))
            [["node1"; "4"]; ["node2"]]%string.
Proof.
  apply TableMore.rendered_table_maps_by_position.
  - reflexivity.
  - repeat constructor; discriminate.
  - discriminate.
Defined.
